(** * tiny-shorturl: code allocation, storage, validation and the two request paths

    A shallow embedding of the TypeScript sources of the URL shortener
    ([lib/store.ts], [lib/nanoid.ts], [lib/validator.ts], [middleware.ts],
    [app/api/shorten/route.ts], [app/[code]/page.tsx]) together with the
    properties claimed for them.

    Conventions of the embedding:
    - a JavaScript string is the list of its UTF-16 code units ([jsstring]),
      so that [length] and [trim] agree with the runtime on every input;
    - [async] functions are computations in a state-and-exception monad
      [M W A]; [await] is sequencing, a rejected promise is [Throw];
    - the plain object that [LocalJSONAdapter] uses as a dictionary is a
      [gmap] of its own properties, read and assigned through the prototype
      chain: the members of [Object.prototype] are visible to [in] and to a
      property read, and an assignment to [__proto__] stores nothing;
    - the file system can reject a write, and [save] with it;
    - third-party packages ([validator], the WHATWG [URL] class,
      [@upstash/ratelimit], [@vercel/kv]) are parameters of the sections that
      use them; [nanoid] is modelled from the package's published generator;
      the module [Reference] holds a model of [validator.isURL] and of the
      URL parser on printable-ASCII http and https URLs. *)

From Stdlib Require Import String Ascii NArith ZArith Lia.
From stdpp Require Import base option list gmap.

Local Open Scope N_scope.

(* ===================================================================== *)
(** ** JavaScript strings *)
(* ===================================================================== *)

Module Js.

(** A string value: its sequence of UTF-16 code units. *)
Abbreviation jsstring := (list N).

(** The string denoted by an ASCII literal of the source. *)
Definition js (s : string) : jsstring :=
  List.map N_of_ascii (list_ascii_of_string s).

(** [WhiteSpace] and [LineTerminator] code points of ECMA-262, the
    characters that [String.prototype.trim] strips and [\s] matches. *)
Definition is_whitespace (c : N) : bool :=
  (c =? 9) || (c =? 10) || (c =? 11) || (c =? 12) || (c =? 13)
  || (c =? 32) || (c =? 160) || (c =? 5760)
  || ((8192 <=? c) && (c <=? 8202))
  || (c =? 8232) || (c =? 8233) || (c =? 8239) || (c =? 8287)
  || (c =? 12288) || (c =? 65279).

Fixpoint trimStart (s : jsstring) : jsstring :=
  match s with
  | c :: s' => if is_whitespace c then trimStart s' else s
  | [] => []
  end.

Definition trimEnd (s : jsstring) : jsstring :=
  List.rev (trimStart (List.rev s)).

(** [s.trim()] *)
Definition trim (s : jsstring) : jsstring := trimEnd (trimStart s).

Definition eqb (a b : jsstring) : bool := bool_decide (a = b).

(** [s.startsWith(p)] *)
Fixpoint startsWith (s p : jsstring) : bool :=
  match p, s with
  | [], _ => true
  | _ :: _, [] => false
  | a :: p', b :: s' => (a =? b) && startsWith s' p'
  end.

(** [s.endsWith(p)] *)
Definition endsWith (s p : jsstring) : bool :=
  startsWith (List.rev s) (List.rev p).

(** [s.includes(c)] for a one-character string [c]. *)
Definition includes_char (s : jsstring) (c : N) : bool :=
  List.existsb (N.eqb c) s.

(** [s.toLowerCase()] on the ASCII range; code units outside [A-Z] are
    left as they are. *)
Definition ascii_lower (c : N) : N :=
  if (65 <=? c) && (c <=? 90) then c + 32 else c.

End Js.
Import Js.

(* ===================================================================== *)
(** ** Exceptions and the effect monad *)
(* ===================================================================== *)

(** Values that the program throws or catches. *)
Inductive Exn : Type :=
| NextNotFound                    (* thrown by [notFound()] *)
| NextRedirect (url : jsstring)   (* thrown by [redirect(url)] *)
| JsError (message : string)      (* [new Error(message)] *)
| TypeError (message : string)    (* property read on [null] *)
| RangeError (message : string)   (* [toISOString] of an invalid date *)
| BackendError (detail : string)  (* raised by the KV or limiter client *)
| SystemError (code : string).    (* rejection of an [fs] call, e.g. EACCES *)

(** The [digest] property that the framework puts on its control-flow
    errors (that of a redirect begins with [NEXT_REDIRECT]); ordinary
    errors have none. *)
Definition digest (e : Exn) : option string :=
  match e with
  | NextNotFound => Some "NEXT_HTTP_ERROR_FALLBACK;404"%string
  | NextRedirect _ => Some "NEXT_REDIRECT"%string
  | _ => None
  end.

Inductive result (A : Type) : Type :=
| Ok (a : A)
| Throw (e : Exn).
Arguments Ok {A} a.
Arguments Throw {A} e.

(** A computation over a world [W]: it returns or throws, and leaves a
    world behind in both cases. *)
Definition M (W A : Type) : Type := W -> result A * W.

Definition ret {W A} (a : A) : M W A := fun w => (Ok a, w).

Definition throw {W A} (e : Exn) : M W A := fun w => (Throw e, w).

Definition bind {W A B} (m : M W A) (k : A -> M W B) : M W B :=
  fun w =>
    match m w with
    | (Ok a, w') => k a w'
    | (Throw e, w') => (Throw e, w')
    end.

(** [try { m } catch (e) { h e }] *)
Definition try_catch {W A} (m : M W A) (h : Exn -> M W A) : M W A :=
  fun w =>
    match m w with
    | (Ok a, w') => (Ok a, w')
    | (Throw e, w') => h e w'
    end.

Definition gets {W A} (f : W -> A) : M W A := fun w => (Ok (f w), w).

Definition modify {W} (f : W -> W) : M W unit := fun w => (Ok tt, f w).

Declare Scope eff_scope.
Delimit Scope eff_scope with eff.
Notation "x <- m ;; k" := (bind m (fun x => k))
  (at level 100, m at next level, right associativity) : eff_scope.
Notation "m ;;; k" := (bind m (fun _ => k))
  (at level 100, right associativity) : eff_scope.
Local Open Scope eff_scope.

(* ===================================================================== *)
(** ** lib/store.ts *)
(* ===================================================================== *)

Module Store.

(** [interface UrlData] *)
Record UrlData : Type := mkUrlData {
  url : jsstring;
  createdAt : jsstring;
  expiresAt : option jsstring;
}.

(** The names of the members that a plain object inherits from
    [Object.prototype]: ten functions, the [constructor] and the accessor
    [__proto__]. *)
Definition Object_prototype_names : list jsstring :=
  [ js "constructor"; js "__defineGetter__"; js "__defineSetter__";
    js "hasOwnProperty"; js "__lookupGetter__"; js "__lookupSetter__";
    js "isPrototypeOf"; js "propertyIsEnumerable"; js "toString";
    js "valueOf"; js "__proto__"; js "toLocaleString" ].

Definition inherited (name : jsstring) : bool :=
  bool_decide (name ∈ Object_prototype_names).

(** What [get] resolves to when it is not [null].  Its declared type is
    [UrlData]; a property read on a plain object can also give a member
    of [Object.prototype] (a function, or the prototype itself for
    [__proto__]), which is truthy and has no [url]. *)
Inductive Found : Type :=
| Stored (data : UrlData)
| Inherited (name : jsstring).

(** [interface StorageAdapter] over a backend whose state has type [S]. *)
Class StorageAdapter (S : Type) : Type := {
  save : jsstring -> UrlData -> M S unit;
  get : jsstring -> M S (option Found);
  exists_ : jsstring -> M S bool;
}.

(** *** LocalJSONAdapter *)

(** What [data/urls.json] parses to: [None] when the file is missing or
    does not parse, otherwise the own properties of the object that
    [JSON.parse] returns for it, taken to be records as the return type
    of [readData] declares.  [JSON.parse] defines every key of the text
    as an own property, [__proto__] included. *)
Abbreviation Parsed := (option (gmap jsstring UrlData)).

(** What a rejected write leaves behind: the file as it was (the
    directory cannot be made, the file cannot be opened), or a file cut
    short, which no longer parses. *)
Inductive Damage : Type :=
| Untouched
| Truncated.

(** The file [data/urls.json] as the adapter meets it: what it parses to,
    and the rejection, if any, that [fs.mkdir] or [fs.writeFile] answer a
    write with. *)
Record DataFile : Type := mkDataFile {
  parsed : Parsed;
  fault : option (Exn * Damage);
}.

Module LocalJSONAdapter.

(** [readData]: both failures of the [try] block give the empty object. *)
Definition readData : M DataFile (gmap jsstring UrlData) :=
  fun file =>
    match parsed file with
    | Some data => (Ok data, file)
    | None => (Ok ∅, file)
    end.

(** [writeData]: [ensureDataDirectory] and [fs.writeFile] either reject,
    or the whole mapping replaces the file contents ([JSON.stringify]
    writes the own properties). *)
Definition writeData (data : gmap jsstring UrlData) : M DataFile unit :=
  fun file =>
    match fault file with
    | None => (Ok tt, {| parsed := Some data; fault := None |})
    | Some (e, Untouched) => (Throw e, file)
    | Some (e, Truncated) => (Throw e, {| parsed := None; fault := fault file |})
    end.

(** [allData[code] = data] on the parsed object.  The assignment defines
    or updates an own property, except for the name [__proto__] when the
    object has no own property of that name: the accessor inherited from
    [Object.prototype] then replaces the prototype of the object and
    leaves its own properties as they are. *)
Definition assign (code : jsstring) (data : UrlData)
           (allData : gmap jsstring UrlData) : gmap jsstring UrlData :=
  if bool_decide (code = js "__proto__") then
    match allData !! code with
    | Some _ => <[code := data]> allData
    | None => allData
    end
  else <[code := data]> allData.

Definition save (code : jsstring) (data : UrlData) : M DataFile unit :=
  allData <- readData ;;
  let allData := assign code data allData in
  writeData allData.

(** [allData[code]]: the own property, else the member of that name
    that the object inherits. *)
Definition read_property (allData : gmap jsstring UrlData)
           (code : jsstring) : option Found :=
  match allData !! code with
  | Some data => Some (Stored data)
  | None => if inherited code then Some (Inherited code) else None
  end.

(** [allData[code] || null]: a record, a function and the prototype are
    objects, hence truthy. *)
Definition get (code : jsstring) : M DataFile (option Found) :=
  allData <- readData ;;
  ret (read_property allData code).

(** [code in allData]: own and inherited properties. *)
Definition exists_ (code : jsstring) : M DataFile bool :=
  allData <- readData ;;
  ret (bool_decide (is_Some (allData !! code)) || inherited code).

End LocalJSONAdapter.

#[export] Instance LocalJSON : StorageAdapter DataFile := {|
  save := LocalJSONAdapter.save;
  get := LocalJSONAdapter.get;
  exists_ := LocalJSONAdapter.exists_;
|}.

(** *** VercelKVAdapter *)

(** The part of the [@vercel/kv] client that the adapter calls, over a
    backend state [K]. *)
Record KvClient (K : Type) : Type := {
  kv_set : jsstring -> UrlData -> M K unit;
  kv_get : jsstring -> M K (option UrlData);
  kv_exists : jsstring -> M K N;
}.
Arguments kv_set {K} _ _ _.
Arguments kv_get {K} _ _.
Arguments kv_exists {K} _ _.

Module VercelKVAdapter.
Section WithClient.
Context {K : Type} (kv : KvClient K).

Definition getKey (code : jsstring) : jsstring := js "shorturl:" ++ code.

Definition save (code : jsstring) (data : UrlData) : M K unit :=
  let key := getKey code in
  kv_set kv key data.

Definition get (code : jsstring) : M K (option Found) :=
  let key := getKey code in
  data <- kv_get kv key ;;
  ret (Stored <$> data).

Definition exists_ (code : jsstring) : M K bool :=
  let key := getKey code in
  n <- kv_exists kv key ;;
  ret (n =? 1).
End WithClient.
End VercelKVAdapter.

Definition VercelKV {K : Type} (kv : KvClient K) : StorageAdapter K := {|
  save := VercelKVAdapter.save kv;
  get := VercelKVAdapter.get kv;
  exists_ := VercelKVAdapter.exists_ kv;
|}.

End Store.
Import Store.

(* ===================================================================== *)
(** ** The world the request handlers run in *)
(* ===================================================================== *)

(** A call through the [StorageAdapter] interface, as recorded in the
    world's call history. *)
Inductive StorageCall : Type :=
| CallSave (code : jsstring) (data : UrlData)
| CallGet (code : jsstring)
| CallExists (code : jsstring).

(** Lines written with [console.warn] and [console.error]. *)
Inductive LogLine : Type :=
| WarnCollision (code : jsstring) (attempts : nat)
| LogError (label : string) (subject : jsstring) (error : Exn).

(** Result of [ratelimit.limit(ip)]. *)
Record RatelimitResponse : Type := {
  success : bool;
  limit : Z;
  reset : Z;
  remaining : Z;
}.

(** The [@upstash/ratelimit] instance, over a backend state [L]. *)
Class Ratelimit (L : Type) : Type := {
  ratelimit_limit : jsstring -> M L RatelimitResponse;
}.

Section World.
Context {S L : Type}.

Record World : Type := mkWorld {
  w_store : S;                  (* state behind the storage singleton *)
  w_limiter : L;                (* state behind the rate limiter *)
  w_random : nat -> N;          (* the bytes the random source will give *)
  w_cursor : nat;               (* how many of them were consumed *)
  w_now : jsstring;             (* [new Date().toISOString()] *)
  w_app_url : option jsstring;  (* [process.env.NEXT_PUBLIC_APP_URL] *)
  w_console : list LogLine;
  w_calls : list StorageCall;
}.

Definition set_store (s : S) (w : World) : World :=
  mkWorld s (w_limiter w) (w_random w) (w_cursor w) (w_now w)
          (w_app_url w) (w_console w) (w_calls w).

Definition set_limiter (l : L) (w : World) : World :=
  mkWorld (w_store w) l (w_random w) (w_cursor w) (w_now w)
          (w_app_url w) (w_console w) (w_calls w).

Definition log (line : LogLine) : M World unit :=
  modify (fun w =>
    mkWorld (w_store w) (w_limiter w) (w_random w) (w_cursor w) (w_now w)
            (w_app_url w) (w_console w ++ [line]) (w_calls w)).

Definition record_call (c : StorageCall) : M World unit :=
  modify (fun w =>
    mkWorld (w_store w) (w_limiter w) (w_random w) (w_cursor w) (w_now w)
            (w_app_url w) (w_console w) (w_calls w ++ [c])).

(** One byte of [crypto.getRandomValues]. *)
Definition random_byte : M World N :=
  fun w =>
    (Ok (w_random w (w_cursor w)),
     mkWorld (w_store w) (w_limiter w) (w_random w) (Datatypes.S (w_cursor w))
             (w_now w) (w_app_url w) (w_console w) (w_calls w)).

(** Run an operation of the storage backend on the world's store. *)
Definition on_store {A} (op : M S A) : M World A :=
  fun w => let '(r, s) := op (w_store w) in (r, set_store s w).

(** Run an operation of the limiter backend on the world's limiter. *)
Definition on_limiter {A} (op : M L A) : M World A :=
  fun w => let '(r, l) := op (w_limiter w) in (r, set_limiter l w).

Context {storage : StorageAdapter S}.

(** [storage.save], [storage.get], [storage.exists] of the singleton. *)
Definition storage_save (code : jsstring) (data : UrlData) : M World unit :=
  record_call (CallSave code data) ;;; on_store (save code data).

Definition storage_get (code : jsstring) : M World (option Found) :=
  record_call (CallGet code) ;;; on_store (get code).

Definition storage_exists (code : jsstring) : M World bool :=
  record_call (CallExists code) ;;; on_store (exists_ code).

(** *** lib/store.ts, utility functions *)

Definition saveUrl (code : jsstring) (url : jsstring) : M World unit :=
  now <- gets w_now ;;
  let data := {| url := url; createdAt := now; expiresAt := None |} in
  storage_save code data.

(** [data?.url || null]: absent when there is no record, when the
    record's [url] is the empty string, and when [data] is an inherited
    member, whose [url] is [undefined]. *)
Definition getUrl (code : jsstring) : M World (option jsstring) :=
  data <- storage_get code ;;
  ret match data with
      | Some (Stored d) =>
          if bool_decide (url d = []) then None else Some (url d)
      | Some (Inherited _) => None
      | None => None
      end.

Definition urlExists (code : jsstring) : M World bool :=
  storage_exists code.

(* =================================================================== *)
(** ** lib/nanoid.ts *)
(* =================================================================== *)

(** The [nanoid] package: [urlAlphabet], and the default generator, which
    draws one random byte per character and indexes the alphabet with its
    low six bits. *)
Definition urlAlphabet : jsstring :=
  js "useandom-26T198340PX75pxJACKVERYMINDBUSHWOLF_GQZbfghjklqvwyzrict".

Definition urlAlphabet_at (byte : N) : N :=
  List.nth (N.to_nat (N.land byte 63)) urlAlphabet 0.

Fixpoint nanoid (size : nat) : M World jsstring :=
  match size with
  | O => ret []
  | Datatypes.S size' =>
      byte <- random_byte ;;
      id <- nanoid size' ;;
      ret (urlAlphabet_at byte :: id)
  end.

Definition ALPHABET : jsstring :=
  js "0123456789ABCDEFGHIJKLMNOPQRSTUVWXYZabcdefghijklmnopqrstuvwxyz".

Definition CODE_LENGTH : nat := 6.

Definition MAX_RETRIES : nat := 5.

(** The [while (attempts < MAX_RETRIES)] loop, by recursion on the number
    [MAX_RETRIES - attempts] of iterations that remain. *)
Fixpoint generateUniqueCode_loop (remaining attempts : nat) : M World jsstring :=
  match remaining with
  | O =>
      throw (JsError "Failed to generate unique short code after 5 attempts")
  | Datatypes.S remaining' =>
      code <- nanoid CODE_LENGTH ;;
      exists' <- urlExists code ;;
      if negb exists' then ret code
      else
        let attempts := Datatypes.S attempts in
        log (WarnCollision code attempts) ;;;
        generateUniqueCode_loop remaining' attempts
  end.

Definition generateUniqueCode : M World jsstring :=
  generateUniqueCode_loop MAX_RETRIES 0.

(** [generateCode()], the call with the default argument, which is
    [nanoid(CODE_LENGTH)].  An explicit [length] is any JavaScript number
    and goes to the package as it is; what the package does with a
    number that is not a small natural number is not modelled. *)
Definition generateCode_default : M World jsstring :=
  nanoid CODE_LENGTH.

Definition isValidCodeFormat (code : jsstring) : bool :=
  if negb (length code =? CODE_LENGTH)%nat then false
  else List.forallb (fun char => includes_char ALPHABET char) code.

End World.
Arguments World : clear implicits.

(* ===================================================================== *)
(** ** lib/validator.ts *)
(* ===================================================================== *)

(** The fields of a [URL] object that the validator reads; [href] is what
    [toString()] returns. *)
Record URL : Type := mkURL {
  protocol : jsstring;
  hostname : jsstring;
  href : jsstring;
}.

(** The library calls of the validator.  [isURL s] is
    [validator.isURL(s, options)] with the options object of the call site
    (protocols http and https, protocol and host required, no underscores,
    no trailing dot, no protocol-relative form); [new_URL s] is
    [new URL(s)], [None] when the constructor throws; [toLowerCase] is
    [String.prototype.toLowerCase]. *)
Class Platform : Type := {
  isURL : jsstring -> bool;
  new_URL : jsstring -> option URL;
  toLowerCase : jsstring -> jsstring;
}.

Module VALIDATION_CONFIG.
Definition MIN_LENGTH : nat := 10.
Definition MAX_LENGTH : nat := 2048.
Definition ALLOWED_PROTOCOLS : list jsstring := [js "http"; js "https"].
Definition BLOCKED_DOMAINS : list jsstring :=
  [js "localhost"; js "127.0.0.1"; js "0.0.0.0"].
End VALIDATION_CONFIG.

Inductive ValidationError : Type :=
| EMPTY_URL
| TOO_SHORT
| TOO_LONG
| INVALID_FORMAT
| INVALID_PROTOCOL
| BLOCKED_DOMAIN.

Record ValidationResult : Type := mkValidationResult {
  isValid : bool;
  error : option ValidationError;
  message : option string;
  normalizedUrl : option jsstring;
}.

Definition invalid (e : ValidationError) (msg : string) : ValidationResult :=
  {| isValid := false; error := Some e; message := Some msg;
     normalizedUrl := None |}.

Definition valid (normalized : jsstring) : ValidationResult :=
  {| isValid := true; error := None; message := None;
     normalizedUrl := Some normalized |}.

Section Validator.
Context {platform : Platform}.

(** [hostname === domain || hostname.endsWith(`.${domain}`)] *)
Definition matches_domain (hostname domain : jsstring) : bool :=
  eqb hostname domain || endsWith hostname (js "." ++ domain).

Definition validateUrl (url : jsstring) : ValidationResult :=
  let trimmedUrl := trim url in
  if bool_decide (trimmedUrl = []) then
    invalid EMPTY_URL "URL cannot be empty"
  else if (length trimmedUrl <? VALIDATION_CONFIG.MIN_LENGTH)%nat then
    invalid TOO_SHORT "URL must be at least 10 characters long"
  else if (VALIDATION_CONFIG.MAX_LENGTH <? length trimmedUrl)%nat then
    invalid TOO_LONG "URL must be less than 2048 characters long"
  else if negb (isURL trimmedUrl) then
    invalid INVALID_FORMAT
            "Please enter a valid URL starting with http:// or https://"
  else
    match new_URL trimmedUrl with
    | None => invalid INVALID_FORMAT "Invalid URL format"
    | Some parsedUrl =>
        let protocol := removelast (protocol parsedUrl) in
        if negb (List.existsb (eqb protocol)
                              VALIDATION_CONFIG.ALLOWED_PROTOCOLS) then
          invalid INVALID_PROTOCOL "Only HTTP and HTTPS URLs are allowed"
        else
          let hostname := toLowerCase (hostname parsedUrl) in
          if List.existsb (matches_domain hostname)
                          VALIDATION_CONFIG.BLOCKED_DOMAINS then
            invalid BLOCKED_DOMAIN "This domain is not allowed"
          else
            valid (href parsedUrl)
    end.

End Validator.

(* ===================================================================== *)
(** ** Requests and responses *)
(* ===================================================================== *)

(** A value read from a parsed JSON body. *)
Inductive JsValue : Type :=
| JUndefined
| JNull
| JBool (b : bool)
| JNumber (n : Z)
| JString (s : jsstring)
| JObject.

(** [!v] is false *)
Definition truthy (v : JsValue) : bool :=
  match v with
  | JUndefined | JNull => false
  | JBool b => b
  | JNumber n => negb (n =? 0)%Z
  | JString s => negb (bool_decide (s = []))
  | JObject => true
  end.

(** [typeof v === 'string'] *)
Definition is_string (v : JsValue) : bool :=
  match v with JString _ => true | _ => false end.

(** The string that a value of type string holds. *)
Definition string_value (v : JsValue) : jsstring :=
  match v with JString s => s | _ => [] end.

(** What [await request.json()] gives: a rejection, the value [null], or
    any other value, of which only the [url] property is read. *)
Inductive RequestBody : Type :=
| BodyInvalid
| BodyNull
| BodyValue (url : JsValue).

Record NextRequest : Type := mkRequest {
  pathname : jsstring;                  (* [request.nextUrl.pathname] *)
  nextUrl_protocol : jsstring;          (* [request.nextUrl.protocol] *)
  nextUrl_host : jsstring;              (* [request.nextUrl.host] *)
  x_forwarded_for : option jsstring;    (* [headers.get('x-forwarded-for')] *)
  x_real_ip : option jsstring;          (* [headers.get('x-real-ip')] *)
  body : RequestBody;
}.

Inductive ResponseBody : Type :=
| SuccessBody (shortUrl code : jsstring)
| ErrorBody (code message : string).

Inductive HeaderValue : Type :=
| HText (s : string)
| HNumber (n : Z)         (* [n.toString()] *)
| HIsoDate (ms : Z).      (* [new Date(ms).toISOString()] *)

Inductive NextResponse : Type :=
| NextResponse_json (body : ResponseBody) (status : N)
                    (headers : list (string * HeaderValue))
| NextResponse_next (headers : list (string * HeaderValue)).

Inductive Method : Type := MPOST | MGET | MPUT | MDELETE.

(** [haystack.includes(needle)] on literals. *)
Fixpoint string_includes (haystack needle : string) : bool :=
  String.prefix needle haystack
  || match haystack with
     | EmptyString => false
     | String _ rest => string_includes rest needle
     end.

(** [new Date(ms).toISOString()]: a time value beyond 8.64e15 ms on either
    side of the epoch is an invalid date. *)
Definition toISOString {W} (ms : Z) : M W HeaderValue :=
  if (Z.abs ms <=? 8640000000000000)%Z then ret (HIsoDate ms)
  else throw (RangeError "Invalid time value").

Section Handlers.
Context {S L : Type} {storage : StorageAdapter S} {ratelimit : Ratelimit L}
        {platform : Platform}.

Local Abbreviation W := (World S L).

(* =================================================================== *)
(** ** middleware.ts *)
(* =================================================================== *)

(** [headers.get('x-forwarded-for') ?? headers.get('x-real-ip') ??
     '127.0.0.1'] *)
Definition client_ip (request : NextRequest) : jsstring :=
  match x_forwarded_for request with
  | Some v => v
  | None =>
      match x_real_ip request with
      | Some v => v
      | None => js "127.0.0.1"
      end
  end.

Definition middleware (request : NextRequest) : M W NextResponse :=
  if startsWith (pathname request) (js "/api/") then
    let ip := client_ip request in
    try_catch
      (r <- on_limiter (ratelimit_limit ip) ;;
       if negb (success r) then
         resetAt <- toISOString (reset r) ;;
         ret (NextResponse_json
                (ErrorBody "RATE_LIMIT_EXCEEDED"
                           "Too many requests. Please try again later.")
                429
                [("X-RateLimit-Limit", HNumber (limit r));
                 ("X-RateLimit-Remaining", HNumber (remaining r));
                 ("X-RateLimit-Reset", resetAt)]%string)
       else
         resetAt <- toISOString (reset r) ;;
         ret (NextResponse_next
                [("X-RateLimit-Limit", HNumber (limit r));
                 ("X-RateLimit-Remaining", HNumber (remaining r));
                 ("X-RateLimit-Reset", resetAt)]%string))
      (fun error =>
         log (LogError "Rate limiting error:" [] error) ;;;
         ret (NextResponse_next []))
  else ret (NextResponse_next []).

(* =================================================================== *)
(** ** app/api/shorten/route.ts *)
(* =================================================================== *)

(** [await request.json()] *)
Definition request_json (request : NextRequest) : M W RequestBody :=
  match body request with
  | BodyInvalid => throw (JsError "Unexpected token in JSON")
  | b => ret b
  end.

(** [body.url] *)
Definition body_url (b : RequestBody) : M W JsValue :=
  match b with
  | BodyValue v => ret v
  | BodyNull => throw (TypeError "Cannot read properties of null")
  | BodyInvalid => ret JUndefined
  end.

Definition errorCodeMap (e : ValidationError) : string :=
  match e with
  | EMPTY_URL => "EMPTY_URL"
  | TOO_SHORT => "URL_TOO_SHORT"
  | TOO_LONG => "URL_TOO_LONG"
  | INVALID_FORMAT => "INVALID_URL_FORMAT"
  | INVALID_PROTOCOL => "INVALID_PROTOCOL"
  | BLOCKED_DOMAIN => "BLOCKED_DOMAIN"
  end.

Definition error_response (code message : string) (status : N) : NextResponse :=
  NextResponse_json (ErrorBody code message) status [].

(** The part of [POST] after the request body has passed validation. *)
Definition shorten_valid (request : NextRequest) (validation : ValidationResult)
  : M W NextResponse :=
  generated <-
    try_catch (shortCode <- generateUniqueCode ;; ret (inl shortCode))
      (fun error =>
         log (LogError "Failed to generate unique code:" [] error) ;;;
         ret (inr (error_response
                     "CODE_GENERATION_FAILED"
                     "Unable to generate short code. Please try again."
                     500))) ;;
  match generated with
  | inr response => ret response
  | inl shortCode =>
      saved <-
        try_catch
          (saveUrl shortCode (default [] (normalizedUrl validation)) ;;;
           ret None)
          (fun error =>
             log (LogError "Failed to save URL:" [] error) ;;;
             ret (Some (error_response
                          "STORAGE_ERROR"
                          "Failed to save URL. Please try again."
                          500))) ;;
      match saved with
      | Some response => ret response
      | None =>
          app_url <- gets w_app_url ;;
          let baseUrl :=
            match app_url with
            | Some u =>
                if bool_decide (u = []) then
                  nextUrl_protocol request ++ js "//" ++ nextUrl_host request
                else u
            | None =>
                nextUrl_protocol request ++ js "//" ++ nextUrl_host request
            end in
          let shortUrl := baseUrl ++ js "/" ++ shortCode in
          ret (NextResponse_json
                 (SuccessBody shortUrl shortCode) 200
                 [("Cache-Control",
                   HText "no-cache, no-store, must-revalidate")]%string)
      end
  end.

Definition POST (request : NextRequest) : M W NextResponse :=
  try_catch
    (parsed <-
       try_catch (b <- request_json request ;; ret (Some b))
                 (fun _ => ret None) ;;
     match parsed with
     | None =>
         ret (error_response "INVALID_JSON" "Invalid JSON in request body" 400)
     | Some b =>
         url <- body_url b ;;
         if negb (truthy url) || negb (is_string url) then
           ret (error_response "MISSING_URL" "URL is required" 400)
         else
           let validation := validateUrl (string_value url) in
           if negb (isValid validation) then
             ret (error_response
                    (from_option errorCodeMap "undefined"%string
                                 (error validation))
                    (default "Invalid URL"%string (message validation))
                    400)
           else shorten_valid request validation
     end)
    (fun error =>
       log (LogError "Unexpected error in shorten API:" [] error) ;;;
       ret (error_response "INTERNAL_ERROR"
              "An unexpected error occurred. Please try again." 500)).

Definition method_not_allowed (message : string) : M W NextResponse :=
  ret (error_response "METHOD_NOT_ALLOWED" message 405).

Definition GET : M W NextResponse :=
  method_not_allowed "GET method not supported. Use POST to shorten URLs.".

Definition PUT : M W NextResponse :=
  method_not_allowed "PUT method not supported. Use POST to shorten URLs.".

Definition DELETE : M W NextResponse :=
  method_not_allowed "DELETE method not supported. Use POST to shorten URLs.".

(** How the framework serves a request for [/api/shorten]: the middleware
    runs first; unless it answers itself, the handler that [route.ts]
    exports for the method answers. *)
Definition creation_endpoint (method : Method) (request : NextRequest)
  : M W NextResponse :=
  r <- middleware request ;;
  match r with
  | NextResponse_json _ _ _ => ret r
  | NextResponse_next _ =>
      match method with
      | MPOST => POST request
      | MGET => GET
      | MPUT => PUT
      | MDELETE => DELETE
      end
  end.

(* =================================================================== *)
(** ** app/[code]/page.tsx *)
(* =================================================================== *)

Definition notFound {A} : M W A := throw NextNotFound.

Definition redirect {A} (url : jsstring) : M W A := throw (NextRedirect url).

(** ['digest' in error && typeof error.digest === 'string' &&
     error.digest.includes('NEXT_REDIRECT')] *)
Definition is_redirect_error (error : Exn) : bool :=
  match digest error with
  | Some d => string_includes d "NEXT_REDIRECT"
  | None => false
  end.

Definition RedirectPage (code : jsstring) : M W unit :=
  (if negb (isValidCodeFormat code) then notFound else ret tt) ;;;
  try_catch
    (originalUrl <- getUrl code ;;
     match originalUrl with
     | None => notFound
     | Some target =>
         if bool_decide (target = []) then notFound else redirect target
     end)
    (fun error =>
       if is_redirect_error error then throw error
       else
         log (LogError "Error redirecting code" code error) ;;;
         notFound).

End Handlers.

(* ===================================================================== *)
(** ** Reference backends *)
(* ===================================================================== *)

(** Executable stand-ins for the external services and libraries, on which
    the handlers can be run on concrete requests.  The general theorems
    below quantify over every backend and every platform; these instances
    only serve the examples. *)
Module Reference.

(** A limiter backend that plays back a script of outcomes, one per call,
    and is unreachable once the script is over. *)
#[export] Instance ScriptedLimiter : Ratelimit (list (result RatelimitResponse)) := {|
  ratelimit_limit := fun _ script =>
    match script with
    | outcome :: rest => (outcome, rest)
    | [] => (Throw (BackendError "limiter unreachable"), [])
    end
|}.

(** A key-value service holding a mapping, [None] while it is down. *)
Definition memory_kv : KvClient (option (gmap jsstring UrlData)) := {|
  kv_set := fun key data state =>
    match state with
    | Some m => (Ok tt, Some (<[key := data]> m))
    | None => (Throw (BackendError "kv unreachable"), None)
    end;
  kv_get := fun key state =>
    match state with
    | Some m => (Ok (m !! key), state)
    | None => (Throw (BackendError "kv unreachable"), None)
    end;
  kv_exists := fun key state =>
    match state with
    | Some m => (Ok (if bool_decide (is_Some (m !! key)) then 1 else 0), state)
    | None => (Throw (BackendError "kv unreachable"), None)
    end;
|}.

(** *** String helpers of the reference platform *)

(** The part of [s] before the first [c], and the part after it. *)
Fixpoint cut_char (c : N) (s : jsstring) : jsstring * option jsstring :=
  match s with
  | [] => ([], None)
  | x :: s' =>
      if x =? c then ([], Some s')
      else let '(a, b) := cut_char c s' in (x :: a, b)
  end.

Definition before (c : N) (s : jsstring) : jsstring := fst (cut_char c s).

(** [s.split(sep)] at the first occurrence of [sep] only. *)
Fixpoint cut (sep s : jsstring) : option (jsstring * jsstring) :=
  if startsWith s sep then Some ([], drop (length sep) s)
  else
    match s with
    | [] => None
    | x :: s' =>
        match cut sep s' with
        | Some (a, b) => Some (x :: a, b)
        | None => None
        end
    end.

(** [s.split(c)] for a one-character separator. *)
Fixpoint split_char (c : N) (s : jsstring) : list jsstring :=
  match s with
  | [] => [[]]
  | x :: s' =>
      match split_char c s' with
      | part :: parts =>
          if x =? c then [] :: part :: parts else (x :: part) :: parts
      | [] => [[x]]
      end
  end.

Fixpoint join (sep : jsstring) (parts : list jsstring) : jsstring :=
  match parts with
  | [] => []
  | [p] => p
  | p :: rest => p ++ sep ++ join sep rest
  end.

Definition is_digit (c : N) : bool := (48 <=? c) && (c <=? 57).
Definition is_alpha (c : N) : bool :=
  ((65 <=? c) && (c <=? 90)) || ((97 <=? c) && (c <=? 122)).

(** Value of a string of decimal digits. *)
Definition decimal (s : jsstring) : N :=
  List.fold_left (fun acc c => 10 * acc + (c - 48)) s 0.

Definition all_digits (s : jsstring) : bool :=
  negb (bool_decide (s = [])) && List.forallb is_digit s.

(** One part of a dotted quad: [0] to [255], no leading zero. *)
Definition quad_part (s : jsstring) : bool :=
  all_digits s && (length s <=? 3)%nat && (decimal s <=? 255)
  && ((length s =? 1)%nat || negb (startsWith s (js "0"))).

(** [isIP(host, 4)] *)
Definition isIPv4 (host : jsstring) : bool :=
  let parts := split_char 46 host in
  (length parts =? 4)%nat && List.forallb quad_part parts.

(** *** validator.isURL

    The algorithm of [validator] 13 with the options of the call site.
    Authorities with user info or a bracketed IPv6 literal are not
    covered and answered [false]. *)

Definition tld_char (c : N) : bool :=
  is_alpha c || ((161 <=? c) && (c <=? 168)) || ((170 <=? c) && (c <=? 65519)).

Definition tld_ok (tld : jsstring) : bool :=
  ((2 <=? length tld)%nat && List.forallb tld_char tld)
  || (startsWith (List.map ascii_lower tld) (js "xn")
      && (4 <=? length tld)%nat
      && List.forallb (fun c => is_alpha c || is_digit c || (c =? 45))
                      (drop 2 tld)).

Definition label_char (c : N) : bool :=
  is_alpha c || is_digit c || (c =? 45) || (c =? 95)
  || ((161 <=? c) && (c <=? 65535)).

Definition label_ok (part : jsstring) : bool :=
  (length part <=? 63)%nat
  && negb (bool_decide (part = []))
  && List.forallb label_char part
  && negb (List.existsb (fun c => (65281 <=? c) && (c <=? 65374)) part)
  && negb (startsWith part (js "-"))
  && negb (endsWith part (js "-"))
  && negb (includes_char part 95).

(** [isFQDN(host, options)]: a top-level domain is required. *)
Definition isFQDN (host : jsstring) : bool :=
  let parts := split_char 46 host in
  let tld := List.last parts [] in
  (2 <=? length parts)%nat
  && tld_ok tld
  && negb (List.existsb is_whitespace tld)
  && negb (all_digits tld)
  && List.forallb label_ok parts.

Definition port_ok (port_str : jsstring) : bool :=
  bool_decide (port_str = [])
  || (List.forallb is_digit port_str
      && (0 <? decimal port_str) && (decimal port_str <=? 65535)).

Definition isURL (url : jsstring) : bool :=
  if bool_decide (url = [])
     || List.existsb (fun c => is_whitespace c || (c =? 60) || (c =? 62)) url
  then false
  else if startsWith url (js "mailto:") then false
  else if (2083 <=? length url)%nat then false
  else
    let url := before 35 url in
    let url := before 63 url in
    match cut (js "://") url with
    | None => false
    | Some (proto, url) =>
        if negb (List.existsb (eqb (List.map ascii_lower proto))
                              [js "http"; js "https"]) then false
        else if bool_decide (url = []) then false
        else
          let authority := before 47 url in
          if List.existsb (fun c => (c =? 64) || (c =? 91)) authority
          then false
          else
            let '(host, port) := cut_char 58 authority in
            if negb (port_ok (default [] port)) then false
            else isIPv4 host || isFQDN host
    end.

(** *** new URL(input)

    The WHATWG parser and serializer on printable-ASCII inputs
    [scheme://host[:port][/path][?query][#fragment]] with scheme http or
    https and a host that is a dot-separated name of letters, digits and
    hyphens, or a dotted quad.  Other inputs (user info, IPv6 literals,
    non-ASCII or percent-encoded hosts, punycode labels, backslashes,
    circumflex in the path) are not covered and answered [None]. *)

Definition hex_digit (n : N) : N := if n <? 10 then 48 + n else 55 + n.

Definition percent (c : N) : jsstring := [37; hex_digit (c / 16); hex_digit (c mod 16)].

Definition percent_encode (in_set : N -> bool) (s : jsstring) : jsstring :=
  List.concat (List.map (fun c => if in_set c then percent c else [c]) s).

Definition path_set (c : N) : bool :=
  (c =? 34) || (c =? 35) || (c =? 60) || (c =? 62) || (c =? 63)
  || (c =? 96) || (c =? 123) || (c =? 125).

Definition query_set (c : N) : bool :=
  (c =? 34) || (c =? 35) || (c =? 39) || (c =? 60) || (c =? 62).

Definition fragment_set (c : N) : bool :=
  (c =? 34) || (c =? 60) || (c =? 62) || (c =? 96).

Definition is_single_dot (seg : jsstring) : bool :=
  let seg := List.map ascii_lower seg in
  eqb seg (js ".") || eqb seg (js "%2e").

Definition is_double_dot (seg : jsstring) : bool :=
  let seg := List.map ascii_lower seg in
  eqb seg (js "..") || eqb seg (js ".%2e") || eqb seg (js "%2e.")
  || eqb seg (js "%2e%2e").

(** The path state of the parser: [acc] is the path so far, last segment
    first. *)
Fixpoint parse_path (segments acc : list jsstring) : list jsstring :=
  match segments with
  | [] => List.rev acc
  | seg :: rest =>
      let at_end := bool_decide (rest = []) in
      if is_double_dot seg then
        parse_path rest (if at_end then [] :: tail acc else tail acc)
      else if is_single_dot seg then
        parse_path rest (if at_end then [] :: acc else acc)
      else parse_path rest (percent_encode path_set seg :: acc)
  end.

Fixpoint strip_zeros (s : jsstring) : jsstring :=
  match s with
  | 48 :: (_ :: _) as s' => strip_zeros s'
  | _ => s
  end.

Definition default_port (scheme : jsstring) : N :=
  if eqb scheme (js "http") then 80 else 443.

Definition host_covered (host : jsstring) : bool :=
  let labels := split_char 46 host in
  let final := List.last labels [] in
  negb (bool_decide (host = []))
  && List.forallb (fun c => is_alpha c || is_digit c || (c =? 45) || (c =? 46)) host
  && negb (List.existsb (fun l => startsWith l (js "xn--")) labels)
  && (isIPv4 host
      || (negb (bool_decide (final = []))
          && negb (is_digit (List.hd 0 final)))).

(** The characters that the parser is modelled on. *)
Definition printable (c : N) : bool :=
  (33 <=? c) && (c <=? 126) && negb (c =? 92).

(** What follows [scheme://], for a special scheme. *)
Definition new_URL_after_scheme (scheme rest : jsstring) : option URL :=
  let '(rest, fragment) := cut_char 35 rest in
  let '(rest, query) := cut_char 63 rest in
  let '(authority, path) := cut_char 47 rest in
  let '(host, port) := cut_char 58 authority in
  let host := List.map ascii_lower host in
  let port := default [] port in
  if negb (host_covered host) then None
  else if negb (List.forallb is_digit port
                && (decimal port <=? 65535)
                && (length port <=? 5)%nat) then None
  else if includes_char (default [] path) 94 then None
  else
    let port_text :=
      if bool_decide (port = [])
         || (decimal port =? default_port scheme) then []
      else js ":" ++ strip_zeros port in
    let segments := parse_path (split_char 47 (default [] path)) [] in
    let path_text := js "/" ++ join (js "/") segments in
    let query_text :=
      match query with
      | Some q => js "?" ++ percent_encode query_set q
      | None => []
      end in
    let fragment_text :=
      match fragment with
      | Some f => js "#" ++ percent_encode fragment_set f
      | None => []
      end in
    Some {| protocol := scheme ++ js ":";
            hostname := host;
            href := scheme ++ js "://" ++ host ++ port_text
                    ++ path_text ++ query_text ++ fragment_text |}.

Definition new_URL (input : jsstring) : option URL :=
  if negb (List.forallb printable input) then None
  else
    let '(scheme, rest) := cut_char 58 input in
    let scheme := List.map ascii_lower scheme in
    match rest with
    | Some (slash1 :: slash2 :: rest) =>
        if negb ((slash1 =? 47) && (slash2 =? 47)) then None
        else if negb (eqb scheme (js "http") || eqb scheme (js "https"))
        then None
        else new_URL_after_scheme scheme rest
    | _ => None
    end.

(** [toLowerCase] on ASCII strings, which host names of parsed URLs are. *)
Definition toLowerCase (s : jsstring) : jsstring := List.map ascii_lower s.

#[export] Instance platform : Platform :=
  Build_Platform isURL new_URL toLowerCase.

(** An idle world over the local adapter: the data file parses to
    [file], the file system accepts writes, the console is silent. *)
Definition fresh_world (file : Parsed)
           (script : list (result RatelimitResponse)) (random : nat -> N)
  : World DataFile (list (result RatelimitResponse)) :=
  {| w_store := {| parsed := file; fault := None |};
     w_limiter := script; w_random := random;
     w_cursor := 0%nat; w_now := js "2024-01-01T00:00:00.000Z";
     w_app_url := None; w_console := []; w_calls := [] |}.

End Reference.

(* ===================================================================== *)
(** ** Vocabulary of the properties *)
(* ===================================================================== *)

Local Open Scope nat_scope.

(** The mapping that the adapter sees in a given file. *)
Definition contents (file : DataFile) : gmap jsstring UrlData :=
  match parsed file with Some data => data | None => ∅ end.

(** A file on a file system that accepts every write. *)
Definition on_disk (file : Parsed) : DataFile :=
  {| parsed := file; fault := None |}.

(** One [save] call of a history: its arguments, and the rejection, if
    any, that the file system answers its write with. *)
Record SaveCall : Type := mkSaveCall {
  call_code : jsstring;
  call_record : UrlData;
  call_fault : option (Exn * Damage);
}.

(** The file after a series of [save] calls, oldest first. *)
Definition run_saves (saves : list SaveCall) (file : DataFile) : DataFile :=
  List.fold_left
    (fun f c =>
       snd (save (call_code c) (call_record c)
                 {| parsed := parsed f; fault := call_fault c |}))
    saves file.

(** A record and two codes for the examples. *)
Definition example_record : UrlData :=
  {| url := js "https://example.com/a";
     createdAt := js "2024-01-01T00:00:00.000Z";
     expiresAt := None |}.

Definition other_record : UrlData :=
  {| url := js "https://example.org/b";
     createdAt := js "2024-02-02T00:00:00.000Z";
     expiresAt := None |}.

(** The code that [nanoid(size)] builds from the random bytes at positions
    [cursor], [cursor + 1], ... *)
Definition draw (random : nat → N) (cursor size : nat) : jsstring :=
  List.map (λ i, urlAlphabet_at (random (cursor + i))) (List.seq 0 size).

(** The candidate of the [i]-th attempt (counting from 0) of a
    [generateUniqueCode] call started in world [w]. *)
Definition candidate {S L} (w : World S L) (i : nat) : jsstring :=
  draw (w_random w) (w_cursor w + CODE_LENGTH * i) CODE_LENGTH.

(** The exhaustion error. *)
Definition exhausted : Exn :=
  JsError "Failed to generate unique short code after 5 attempts".

(** The world after drawing [n] random bytes. *)
Definition advance {S L} (n : nat) (w : World S L) : World S L :=
  mkWorld (w_store w) (w_limiter w) (w_random w) (w_cursor w + n) (w_now w)
          (w_app_url w) (w_console w) (w_calls w).

(** The world after one attempt of [generateUniqueCode]: six more bytes
    drawn, one more [exists] call on record. *)
Definition after_check {S L} (w : World S L) : World S L :=
  mkWorld (w_store w) (w_limiter w) (w_random w)
          (w_cursor w + CODE_LENGTH) (w_now w) (w_app_url w)
          (w_console w) (w_calls w ++ [CallExists (candidate w 0)]).

(** ... and after the warning that reports a collision. *)
Definition after_collision {S L} (attempts : nat) (w : World S L) : World S L :=
  mkWorld (w_store w) (w_limiter w) (w_random w)
          (w_cursor w + CODE_LENGTH) (w_now w) (w_app_url w)
          (w_console w ++ [WarnCollision (candidate w 0) attempts])
          (w_calls w ++ [CallExists (candidate w 0)]).

(** The validation rules in the order in which the specification lists
    them: what it means for a trimmed input to fail each rule, and the
    error the rule reports.  The last two rules look at the parsed URL. *)
Section Rules.
Context {platform : Platform}.

(** [h] is [d], or ends with a dot followed by [d]. *)
Definition is_or_under (h d : jsstring) : Prop :=
  h = d ∨ ∃ sub, h = sub ++ js "." ++ d.

Definition ordered_rules (t : jsstring) : list (Prop * ValidationError) :=
  [ (t = [], EMPTY_URL);
    (length t < 10, TOO_SHORT);
    (2048 < length t, TOO_LONG);
    (isURL t = false ∨ new_URL t = None, INVALID_FORMAT);
    ((∃ u, new_URL t = Some u
           ∧ removelast (protocol u) ∉ [js "http"; js "https"]),
     INVALID_PROTOCOL);
    ((∃ u, new_URL t = Some u
           ∧ Exists (is_or_under (toLowerCase (hostname u)))
                    [js "localhost"; js "127.0.0.1"; js "0.0.0.0"]),
     BLOCKED_DOMAIN) ].

(** [e] is the error of the first rule that fails, and [None] when no
    rule fails. *)
Fixpoint first_failure (rules : list (Prop * ValidationError))
         (e : option ValidationError) : Prop :=
  match rules with
  | [] => e = None
  | (fails, err) :: rest =>
      (fails ∧ e = Some err) ∨ (¬ fails ∧ first_failure rest e)
  end.

End Rules.

(** Two platforms that give the same answers on the input [t]. *)
Definition same_isURL_at (p q : Platform) (t : jsstring) : Prop :=
  @isURL p t = @isURL q t.

Definition same_URL_at (p q : Platform) (t : jsstring) : Prop :=
  @new_URL p t = @new_URL q t.

(** The world after a call through the storage interface that left the
    backend in state [s]. *)
Definition after_call {S L} (c : StorageCall) (s : S) (w : World S L)
  : World S L :=
  mkWorld s (w_limiter w) (w_random w) (w_cursor w) (w_now w) (w_app_url w)
          (w_console w) (w_calls w ++ [c]).

(** The world after the limiter moved to state [l] and a line was
    logged. *)
Definition after_limiter_error {S L} (l : L) (line : LogLine) (w : World S L)
  : World S L :=
  mkWorld (w_store w) l (w_random w) (w_cursor w) (w_now w) (w_app_url w)
          (w_console w ++ [line]) (w_calls w).

(** A code is well formed when it has six characters, all of them in
    [ALPHABET]. *)
Definition well_formed (code : jsstring) : Prop :=
  length code = 6 ∧ List.Forall (λ c, List.In c ALPHABET) code.

(** The error taxonomy as the specification lists it, each code with its
    HTTP status. *)
Definition claimed_taxonomy : list (string * N) :=
  [ ("EMPTY_URL", 400); ("TOO_SHORT", 400); ("TOO_LONG", 400);
    ("INVALID_FORMAT", 400); ("INVALID_PROTOCOL", 400);
    ("BLOCKED_DOMAIN", 400); ("CODE_GENERATION_FAILED", 500);
    ("STORAGE_ERROR", 500); ("RATE_LIMIT_EXCEEDED", 429);
    ("INTERNAL_ERROR", 500) ]%string%N.

(** The codes and statuses that [middleware.ts] and [route.ts] contain. *)
Definition implemented_taxonomy : list (string * N) :=
  [ ("EMPTY_URL", 400); ("URL_TOO_SHORT", 400); ("URL_TOO_LONG", 400);
    ("INVALID_URL_FORMAT", 400); ("INVALID_PROTOCOL", 400);
    ("BLOCKED_DOMAIN", 400); ("INVALID_JSON", 400); ("MISSING_URL", 400);
    ("CODE_GENERATION_FAILED", 500); ("STORAGE_ERROR", 500);
    ("RATE_LIMIT_EXCEEDED", 429); ("INTERNAL_ERROR", 500);
    ("METHOD_NOT_ALLOWED", 405) ]%string%N.

(** *** Example data *)

(** A record whose [url] is the empty string. *)
Definition blank_record : UrlData :=
  {| url := []; createdAt := js "2024-01-01T00:00:00.000Z"; expiresAt := None |}.

(** A creation request carrying the JSON body [{"url": s}]. *)
Definition shorten_request (s : jsstring) : NextRequest :=
  {| pathname := js "/api/shorten";
     nextUrl_protocol := js "https:";
     nextUrl_host := js "sho.rt";
     x_forwarded_for := Some (js "203.0.113.7");
     x_real_ip := None;
     body := BodyValue (JString s) |}.

(** A limiter answer below the cap, and one above it. *)
Definition under_cap : RatelimitResponse :=
  {| success := true; limit := 20; reset := 1704067260000; remaining := 19 |}.

Definition over_cap : RatelimitResponse :=
  {| success := false; limit := 20; reset := 1704067260000; remaining := 0 |}.

(** A random source whose first 24 bytes are 0 and whose later bytes are
    1: four candidates [uuuuuu], then [ssssss]. *)
Definition four_then_fresh (i : nat) : N := if i <? 24 then 0%N else 1%N.

(** Whether [code in allData] holds for the object that the local adapter
    reads from the file. *)
Definition present_in_file (code : jsstring) (file : DataFile) : bool :=
  bool_decide (is_Some (contents file !! code)) || inherited code.

(** A world over the KV adapter whose key-value service is down. *)
Definition kv_down
  : World (option (gmap jsstring UrlData)) (list (result RatelimitResponse)) :=
  {| w_store := None; w_limiter := []; w_random := λ _, 0%N;
     w_cursor := 0; w_now := js "2024-01-01T00:00:00.000Z";
     w_app_url := None; w_console := []; w_calls := [] |}.

(* ===================================================================== *)
(** ** lib/validator.ts, the quick check and the normaliser *)
(* ===================================================================== *)

(** The characters that [.] does not match in a regular expression. *)
Definition is_line_terminator (c : N) : bool :=
  (c =? 10)%N || (c =? 13)%N || (c =? 8232)%N || (c =? 8233)%N.

(** Whether the code unit [c] matches the letter [l] of a pattern under the
    [i] flag; only the two ASCII cases of a letter canonicalise to it. *)
Definition matches_letter (c : N) (l : string) : bool :=
  bool_decide ([ascii_lower c] = js l).

(** The tail [:\/\/.+] of the pattern. *)
Definition matches_after_scheme (s : jsstring) : bool :=
  startsWith s (js "://")
  && match drop 3 s with
     | c :: _ => negb (is_line_terminator c)
     | [] => false
     end.

(** [/^https?:\/\/.+/i.test(s)] *)
Definition urlRegex_test (s : jsstring) : bool :=
  match s with
  | h :: t1 :: t2 :: p :: rest =>
      matches_letter h "h" && matches_letter t1 "t"
      && matches_letter t2 "t" && matches_letter p "p"
      && (match rest with
          | s' :: rest' => matches_letter s' "s" && matches_after_scheme rest'
          | [] => false
          end
          || matches_after_scheme rest)
  | _ => false
  end.

Definition isValidUrlFormat (url : jsstring) : bool :=
  let trimmed := trim url in
  (VALIDATION_CONFIG.MIN_LENGTH <=? length trimmed)
  && (length trimmed <=? VALIDATION_CONFIG.MAX_LENGTH)
  && urlRegex_test trimmed.

Definition normalizeUrl {platform : Platform} (url : jsstring) : jsstring :=
  match new_URL (trim url) with
  | Some parsed => href parsed
  | None => trim url
  end.

(** [validateInput] of [components/url-shortener.tsx]: the message shown
    under the input field, [None] when the input may be submitted. *)
Definition validateInput (url : jsstring) : option string :=
  if bool_decide (trim url = []) then Some "Please enter a URL"%string
  else if negb (isValidUrlFormat url) then
    Some "Please enter a valid URL starting with http:// or https://"%string
  else None.

(** The alphanumeric code units: digits, upper case, lower case. *)
Definition alphanumeric (c : N) : Prop :=
  (48 ≤ c ≤ 57)%N ∨ (65 ≤ c ≤ 90)%N ∨ (97 ≤ c ≤ 122)%N.

(** What the pattern of the quick check asks of a trimmed input: a scheme
    that is http or https in any letter case, then [://], then at least one
    character that is not a line terminator. *)
Definition has_http_prefix (t : jsstring) : Prop :=
  ∃ scheme c rest,
    t = scheme ++ js "://" ++ c :: rest
    ∧ List.map ascii_lower scheme ∈ [js "http"; js "https"]
    ∧ is_line_terminator c = false.

(** The characters of the [nanoid] alphabet: alphanumeric, hyphen,
    underscore. *)
Definition url_safe (c : N) : Prop := alphanumeric c ∨ c = 45%N ∨ c = 95%N.

Definition is_alphanumeric (c : N) : bool :=
  ((48 <=? c) && (c <=? 57) || (65 <=? c) && (c <=? 90)
   || (97 <=? c) && (c <=? 122))%N.

(** The origin that [POST] puts in front of the code:
    [process.env.NEXT_PUBLIC_APP_URL] when it is set and not empty,
    otherwise the protocol and host of the request. *)
Definition base_url {S L} (request : NextRequest) (w : World S L) : jsstring :=
  match w_app_url w with
  | Some u =>
      if bool_decide (u = []) then
        nextUrl_protocol request ++ js "//" ++ nextUrl_host request
      else u
  | None => nextUrl_protocol request ++ js "//" ++ nextUrl_host request
  end.

(** The record that [saveUrl] writes in world [w] for the target [u]. *)
Definition new_record {S L} (w : World S L) (u : jsstring) : UrlData :=
  {| url := u; createdAt := w_now w; expiresAt := None |}.

(** A key-value service that is always up: its state is the mapping it
    holds. *)
Definition map_kv : KvClient (gmap jsstring UrlData) := {|
  kv_set := λ key data m, (Ok tt, <[key := data]> m);
  kv_get := λ key m, (Ok (m !! key), m);
  kv_exists := λ key m,
    (Ok (if bool_decide (is_Some (m !! key)) then 1%N else 0%N), m);
|}.

(** The local file and the key-value state hold the same records: what the
    file has under a code, the service has under the key of that code. *)
Definition same_records {K} (view : K → gmap jsstring UrlData)
           (file : DataFile) (s : K) : Prop :=
  ∀ code, contents file !! code = view s !! VercelKVAdapter.getKey code.

(** A key-value service that answers reads and refuses writes. *)
Definition readonly_kv : KvClient (gmap jsstring UrlData) := {|
  kv_set := λ key data m, (Throw (BackendError "read-only replica"), m);
  kv_get := λ key m, (Ok (m !! key), m);
  kv_exists := λ key m,
    (Ok (if bool_decide (is_Some (m !! key)) then 1%N else 0%N), m);
|}.

(** A world over the KV adapter on an empty service. *)
Definition kv_world
  : World (gmap jsstring UrlData) (list (result RatelimitResponse)) :=
  {| w_store := ∅; w_limiter := []; w_random := λ _, 0%N;
     w_cursor := 0; w_now := js "2024-01-01T00:00:00.000Z";
     w_app_url := None; w_console := []; w_calls := [] |}.

(** *** Normal forms of the reference parser *)

Abbreviation printable := Reference.printable.






Definition query_text (query : option jsstring) : jsstring :=
  match query with Some q => js "?" ++ q | None => [] end.

Definition fragment_text (fragment : option jsstring) : jsstring :=
  match fragment with Some f => js "#" ++ f | None => [] end.




(** The characters of each part of a serialisation. *)
Abbreviation host_char :=
  (λ c : N, Reference.is_alpha c || Reference.is_digit c || (c =? 45)%N
            || (c =? 46)%N).






(* ===================================================================== *)
(** * Properties *)
(* ===================================================================== *)

#[local] Existing Instance Reference.ScriptedLimiter.

(** ** The local adapter as a mapping *)

Lemma readData_spec (file : DataFile) :
  LocalJSONAdapter.readData file = (Ok (contents file), file).
Proof. unfold LocalJSONAdapter.readData, contents. by destruct (parsed file). Qed.

Lemma contents_on_disk (data : gmap jsstring UrlData) :
  contents (on_disk (Some data)) = data.
Proof. reflexivity. Qed.

Lemma local_save_spec (code : jsstring) (data : UrlData) (file : DataFile) :
  save code data file
  = LocalJSONAdapter.writeData
      (LocalJSONAdapter.assign code data (contents file)) file.
Proof.
  simpl. unfold LocalJSONAdapter.save, bind. by rewrite readData_spec.
Qed.

(** [save] returns exactly when the file system takes the write, and then
    the file holds the assigned mapping. *)
Lemma local_save_ok (code : jsstring) (data : UrlData) (file : DataFile) :
  fault file = None →
  save code data file
  = (Ok tt, on_disk (Some (LocalJSONAdapter.assign code data (contents file)))).
Proof.
  intros Hfault. rewrite local_save_spec.
  unfold LocalJSONAdapter.writeData. by rewrite Hfault.
Qed.

Lemma local_save_inv (code : jsstring) (data : UrlData) (file file' : DataFile) :
  save code data file = (Ok tt, file') →
  fault file = None
  ∧ file' = on_disk (Some (LocalJSONAdapter.assign code data (contents file))).
Proof.
  rewrite local_save_spec. unfold LocalJSONAdapter.writeData.
  destruct (fault file) as [[e []]|]; intros H; by simplify_eq.
Qed.

Lemma local_save_throws (code : jsstring) (data : UrlData) (file : DataFile)
      (e : Exn) (damage : Damage) :
  fault file = Some (e, damage) → fst (save code data file) = Throw e.
Proof.
  intros Hfault. rewrite local_save_spec.
  unfold LocalJSONAdapter.writeData. rewrite Hfault. by destruct damage.
Qed.

Lemma local_get_spec (code : jsstring) (file : DataFile) :
  get code file
  = (Ok (LocalJSONAdapter.read_property (contents file) code), file).
Proof.
  simpl. unfold LocalJSONAdapter.get, bind. by rewrite readData_spec.
Qed.

Lemma local_exists_spec (code : jsstring) (file : DataFile) :
  exists_ code file = (Ok (present_in_file code file), file).
Proof.
  simpl. unfold LocalJSONAdapter.exists_, bind. by rewrite readData_spec.
Qed.

Lemma assign_other (c c' : jsstring) (d : UrlData) (m : gmap jsstring UrlData) :
  c' ≠ c → LocalJSONAdapter.assign c d m !! c' = m !! c'.
Proof.
  intros Hne. unfold LocalJSONAdapter.assign.
  case_bool_decide; [destruct (m !! c)|]; by rewrite ?lookup_insert_ne.
Qed.

Lemma assign_own (c : jsstring) (d : UrlData) (m : gmap jsstring UrlData) :
  c ≠ js "__proto__" ∨ is_Some (m !! c) →
  LocalJSONAdapter.assign c d m = <[c := d]> m.
Proof.
  intros Hc. unfold LocalJSONAdapter.assign.
  case_bool_decide as Hp; [|done].
  destruct Hc as [Hc|[old Hold]]; [done|]. by rewrite Hold.
Qed.

Lemma present_in_file_false (code : jsstring) (file : DataFile) :
  present_in_file code file = false ↔
  contents file !! code = None ∧ code ∉ Object_prototype_names.
Proof.
  unfold present_in_file, inherited.
  rewrite orb_false_iff, !bool_decide_eq_false, <-eq_None_not_Some. done.
Qed.

Lemma read_property_absent (m : gmap jsstring UrlData) (code : jsstring) :
  m !! code = None → code ∉ Object_prototype_names →
  LocalJSONAdapter.read_property m code = None.
Proof.
  intros Hm Hc. unfold LocalJSONAdapter.read_property, inherited.
  rewrite Hm. by rewrite bool_decide_eq_false_2.
Qed.

Lemma read_property_own (m : gmap jsstring UrlData) (code : jsstring)
      (data : UrlData) :
  m !! code = Some data →
  LocalJSONAdapter.read_property m code = Some (Stored data).
Proof. intros Hm. unfold LocalJSONAdapter.read_property. by rewrite Hm. Qed.

(** No member of [Object.prototype] has a six-character name. *)
Lemma six_characters_not_inherited (code : jsstring) :
  length code = 6 → code ∉ Object_prototype_names.
Proof.
  intros Hlen Hin. unfold Object_prototype_names in Hin.
  repeat (apply elem_of_cons in Hin as [->|Hin]; [by vm_compute in Hlen|]).
  by apply elem_of_nil in Hin.
Qed.

Lemma run_saves_snoc saves call file :
  run_saves (saves ++ [call]) file
  = snd (save (call_code call) (call_record call)
              {| parsed := parsed (run_saves saves file);
                 fault := call_fault call |}).
Proof. unfold run_saves. by rewrite List.fold_left_app. Qed.

(** A code that no [save] of the series names and that had no record
    has none afterwards, whichever of the writes were rejected. *)
Lemma run_saves_frame saves file (code : jsstring) :
  code ∉ call_code <$> saves →
  contents file !! code = None →
  contents (run_saves saves file) !! code = None.
Proof.
  intros Hfresh Hnone.
  induction saves as [|[c d f] saves IH] using rev_ind; [done|].
  rewrite fmap_app, not_elem_of_app in Hfresh. simpl in Hfresh.
  destruct Hfresh as [Hs Hc]. specialize (IH Hs).
  assert (code ≠ c) as Hne by (intros ->; apply Hc; by left).
  rewrite run_saves_snoc, local_save_spec. simpl.
  unfold LocalJSONAdapter.writeData. simpl.
  destruct f as [[e []]|]; simpl; unfold contents in *; simpl.
  - done.
  - done.
  - by rewrite assign_other.
Qed.

(** claim C6, counterexample: on a store without a data file, on which
    [save] was never called, [exists("toString")] is true and
    [get("toString")] is not null; and after [save("__proto__", record)]
    has returned, the file holds no record and [get("__proto__")] returns
    the prototype, not a record with the [url] of [record]; and on a file
    system that rejects the write, [save] rejects and [get] of the code
    still returns null. *)
Lemma local_adapter_shows_inherited_members :
  fst (exists_ (js "toString") (on_disk None)) = Ok true
  ∧ fst (get (js "toString") (on_disk None))
    = Ok (Some (Inherited (js "toString")))
  ∧ save (js "__proto__") example_record (on_disk None)
    = (Ok tt, on_disk (Some ∅))
  ∧ fst (get (js "__proto__") (on_disk (Some ∅)))
    = Ok (Some (Inherited (js "__proto__")))
  ∧ (let read_only := {| parsed := None;
                         fault := Some (SystemError "EROFS", Untouched) |} in
     save (js "abc123") example_record read_only
     = (Throw (SystemError "EROFS"), read_only)
     ∧ fst (get (js "abc123") read_only) = Ok None).
Proof. by vm_compute. Qed.

(** claim C6, as the code has it: after a [save(code, record)] that
    returns, for a code other than [__proto__], [get(code)] returns a
    record with the [url] of [record]; a code that is not the name of a
    member of [Object.prototype] and that no [save] ever named, on a
    store that started without a data file, is absent for [get] (null)
    and for [exists] (false), whichever of the writes were rejected; and
    every six-character code is such a code. *)
Theorem local_save_get_roundtrip_own_codes :
  (∀ (file file' : DataFile) (code : jsstring) (record : UrlData),
     code ≠ js "__proto__" →
     save code record file = (Ok tt, file') →
     ∃ found : UrlData,
       get code file' = (Ok (Some (Stored found)), file')
       ∧ url found = url record)
  ∧ (∀ (saves : list SaveCall) (code : jsstring)
       (fault0 : option (Exn * Damage)),
       code ∉ Object_prototype_names →
       code ∉ call_code <$> saves →
       let file := run_saves saves {| parsed := None; fault := fault0 |} in
       fst (get code file) = Ok None ∧ fst (exists_ code file) = Ok false)
  ∧ (∀ code : jsstring, length code = 6 → code ∉ Object_prototype_names).
Proof.
  split_and!.
  - intros file file' code record Hcode Hsave.
    apply local_save_inv in Hsave as [_ ->].
    exists record. rewrite local_get_spec. split; [|done].
    unfold contents, on_disk; simpl.
    rewrite assign_own by by left.
    by rewrite (read_property_own _ _ record) by apply lookup_insert_eq.
  - intros saves code fault0 Hcode Hfresh file.
    assert (contents file !! code = None) as Hnone
      by by apply run_saves_frame.
    rewrite local_get_spec, local_exists_spec. simpl. split.
    + by rewrite read_property_absent.
    + f_equal. by apply present_in_file_false.
  - apply six_characters_not_inherited.
Qed.

Lemma local_save_get_roundtrip_own_codes_witness :
  (∃ found : UrlData,
     get (js "abc123") (on_disk (Some {[ js "abc123" := example_record ]}))
     = (Ok (Some (Stored found)),
        on_disk (Some {[ js "abc123" := example_record ]}))
     ∧ url found = url example_record)
  ∧ (let file :=
       run_saves [mkSaveCall (js "abc123") example_record None;
                  mkSaveCall (js "def456") example_record
                             (Some (SystemError "ENOSPC", Truncated))]
                 (on_disk None) in
     fst (get (js "zzz999") file) = Ok None
     ∧ fst (exists_ (js "zzz999") file) = Ok false).
Proof.
  split.
  - apply (proj1 local_save_get_roundtrip_own_codes (on_disk None)).
    + by vm_compute.
    + by vm_compute.
  - apply (proj1 (proj2 local_save_get_roundtrip_own_codes)).
    + apply (bool_decide_unpack _). by vm_compute.
    + apply (bool_decide_unpack _). by vm_compute.
Defined.

(** claim C10, counterexample: on a file system that rejects the write
    (a read-only one, say), [save] of a code that already has a record
    rejects, and the record stays as it was. *)
Lemma local_save_rejects_with_file_system :
  let file := {| parsed := Some {[ js "abc123" := example_record ]};
                 fault := Some (SystemError "EROFS", Untouched) |} in
  fst (get (js "abc123") file) = Ok (Some (Stored example_record))
  ∧ save (js "abc123") other_record file = (Throw (SystemError "EROFS"), file).
Proof. by vm_compute. Qed.

(** claim C10, as the code has it: on the local adapter, [save(c, r)]
    returns exactly when the file system takes the write, whatever the
    file holds under [c]; when it returns, the record, or the absence, of
    every other code is as it was, and a record that [c] already had is
    replaced by [r]. *)
Theorem local_save_frame_and_overwrite_on_write
        (file : DataFile) (c : jsstring) (r : UrlData) :
  (fst (save c r file) = Ok tt ↔ fault file = None)
  ∧ (∀ file', save c r file = (Ok tt, file') →
       (∀ c', c' ≠ c →
          contents file' !! c' = contents file !! c'
          ∧ fst (get c' file') = fst (get c' file)
          ∧ fst (exists_ c' file') = fst (exists_ c' file))
       ∧ (∀ old : UrlData, fst (get c file) = Ok (Some (Stored old)) →
            fst (get c file') = Ok (Some (Stored r)))).
Proof.
  split.
  - split.
    + destruct (fault file) as [[e damage]|] eqn:Hfault; [|done].
      by rewrite (local_save_throws _ _ _ e damage).
    + intros Hfault. by rewrite local_save_ok.
  - intros file' Hsave. apply local_save_inv in Hsave as [_ ->]. split.
    + intros c' Hne.
      assert (contents
                (on_disk (Some (LocalJSONAdapter.assign c r (contents file))))
                !! c' = contents file !! c') as Hsame
        by (unfold contents at 1; simpl; by apply assign_other).
      rewrite !local_get_spec, !local_exists_spec. simpl.
      unfold present_in_file, LocalJSONAdapter.read_property.
      by rewrite Hsame.
    + intros old. rewrite !local_get_spec. simpl. intros Hold.
      assert (contents file !! c = Some old) as Hown.
      { unfold LocalJSONAdapter.read_property in Hold.
        destruct (contents file !! c); [by simplify_eq|].
        by destruct (inherited c). }
      unfold contents at 1; simpl.
      rewrite assign_own by (right; by rewrite Hown).
      by rewrite (read_property_own _ _ r) by apply lookup_insert_eq.
Qed.

Lemma local_save_frame_and_overwrite_on_write_witness :
  let file : DataFile :=
    on_disk (Some {[ js "abc123" := example_record;
                     js "zzz999" := example_record ]}) in
  let file' := snd (save (js "abc123") other_record file) in
  fst (get (js "zzz999") file') = fst (get (js "zzz999") file)
  ∧ fst (get (js "abc123") file') = Ok (Some (Stored other_record)).
Proof.
  intros file file'.
  destruct (local_save_frame_and_overwrite_on_write
              file (js "abc123") other_record) as [_ Hsaved].
  destruct (Hsaved file') as [Hframe Hover]; [by vm_compute|].
  split.
  - apply (Hframe (js "zzz999")). by vm_compute.
  - apply (Hover example_record). by vm_compute.
Defined.

(** ** Code generation *)

Section Generation.
Context {S L : Type} {storage : StorageAdapter S}.

Local Abbreviation W := (World S L).

Lemma draw_succ random cursor size :
  draw random cursor (Datatypes.S size)
  = urlAlphabet_at (random cursor) :: draw random (Datatypes.S cursor) size.
Proof.
  unfold draw. simpl. rewrite Nat.add_0_r. f_equal.
  rewrite <- List.seq_shift, List.map_map.
  apply List.map_ext. intros i. by rewrite Nat.add_succ_r.
Qed.

Lemma nanoid_spec size (w : W) :
  nanoid size w = (Ok (draw (w_random w) (w_cursor w) size), advance size w).
Proof.
  revert w. induction size as [|size IH]; intros w.
  - simpl. unfold ret, advance. rewrite Nat.add_0_r. by destruct w.
  - rewrite draw_succ. simpl. unfold bind, random_byte.
    rewrite IH. simpl. unfold ret, advance. simpl.
    by rewrite Nat.add_succ_r.
Qed.

Lemma draw_length random cursor size :
  length (draw random cursor size) = size.
Proof. unfold draw. by rewrite List.length_map, List.length_seq. Qed.

Lemma urlAlphabet_at_in (byte : N) : List.In (urlAlphabet_at byte) urlAlphabet.
Proof.
  unfold urlAlphabet_at. apply List.nth_In.
  change (length urlAlphabet) with 64.
  assert (N.land byte 63 < 64)%N.
  { change 63%N with (N.ones 6). rewrite N.land_ones.
    apply N.mod_lt. discriminate. }
  lia.
Qed.

(** What [generateCode] and every attempt of [generateUniqueCode] yield:
    [size] characters of the package's 64-symbol alphabet. *)
Lemma nanoid_shape size (w : W) :
  ∃ id, fst (nanoid size w) = Ok id
        ∧ length id = size
        ∧ List.Forall (λ c, List.In c urlAlphabet) id.
Proof.
  rewrite nanoid_spec. eexists. split; [done|]. split.
  - apply draw_length.
  - unfold draw. apply List.Forall_map, List.Forall_forall.
    intros i _. apply urlAlphabet_at_in.
Qed.

Lemma candidate_advance (w w' : W) i :
  w_random w' = w_random w →
  w_cursor w' = w_cursor w + CODE_LENGTH →
  candidate w' i = candidate w (Datatypes.S i).
Proof.
  intros Hr Hc. unfold candidate. rewrite Hr, Hc. f_equal.
  unfold CODE_LENGTH. lia.
Qed.

Lemma candidate_zero (w : W) :
  candidate w 0 = draw (w_random w) (w_cursor w) CODE_LENGTH.
Proof. unfold candidate. f_equal. unfold CODE_LENGTH. lia. Qed.

Section PureExists.
(** A backend whose [exists] only reads: it answers [present] and
    leaves the state as it is. *)
Variable present : jsstring → S → bool.
Hypothesis exists_reads : ∀ c s, exists_ c s = (Ok (present c s), s).

Lemma urlExists_spec code (w : W) :
  urlExists code w
  = (Ok (present code (w_store w)),
     mkWorld (w_store w) (w_limiter w) (w_random w) (w_cursor w) (w_now w)
             (w_app_url w) (w_console w) (w_calls w ++ [CallExists code])).
Proof.
  unfold urlExists, storage_exists, bind, record_call, modify, on_store.
  simpl. by rewrite exists_reads.
Qed.

Lemma generateUniqueCode_loop_step remaining attempts (w : W) :
  generateUniqueCode_loop (Datatypes.S remaining) attempts w
  = if present (candidate w 0) (w_store w)
    then generateUniqueCode_loop remaining (Datatypes.S attempts)
           (after_collision (Datatypes.S attempts) w)
    else (Ok (candidate w 0), after_check w).
Proof.
  cbn [generateUniqueCode_loop].
  unfold bind at 1. rewrite nanoid_spec.
  unfold bind at 1. rewrite urlExists_spec.
  rewrite <- candidate_zero.
  change (w_store (advance CODE_LENGTH w)) with (w_store w).
  destruct (present (candidate w 0) (w_store w)); reflexivity.
Qed.

(** One run of the retry loop: [n] checks were made, all of them
    [exists] calls on the successive candidates; the store is as
    before; the first free candidate is returned, and when none of
    the [remaining] candidates is free the exhaustion error is
    thrown. *)
Lemma generateUniqueCode_loop_run remaining attempts (w : W) :
  ∃ n,
    n ≤ remaining
    ∧ w_store (snd (generateUniqueCode_loop remaining attempts w))
      = w_store w
    ∧ w_calls (snd (generateUniqueCode_loop remaining attempts w))
      = w_calls w
        ++ List.map (λ i, CallExists (candidate w i)) (List.seq 0 n)
    ∧ (∀ k, k < remaining →
         (∀ i, i < k → present (candidate w i) (w_store w) = true) →
         present (candidate w k) (w_store w) = false →
         fst (generateUniqueCode_loop remaining attempts w)
         = Ok (candidate w k))
    ∧ ((∀ i, i < remaining →
          present (candidate w i) (w_store w) = true) →
       fst (generateUniqueCode_loop remaining attempts w)
       = Throw exhausted).
Proof.
  revert attempts w.
  induction remaining as [|remaining IH]; intros attempts w.
  - exists 0. simpl. rewrite app_nil_r.
    repeat split; [lia | intros k Hk; lia].
  - rewrite generateUniqueCode_loop_step.
    destruct (present (candidate w 0) (w_store w)) eqn:Hp.
    + set (w3 := after_collision (Datatypes.S attempts) w).
      destruct (IH (Datatypes.S attempts) w3)
        as (n & Hn & Hstore & Hcalls & Hfree & Hnone).
      assert (Hcand : ∀ i, candidate w3 i = candidate w (Datatypes.S i))
        by (intros i; by apply candidate_advance).
      exists (Datatypes.S n). split; [lia|]. split; [exact Hstore|].
      split; [|split].
      * rewrite Hcalls. simpl. rewrite <- app_assoc. simpl.
        do 2 f_equal. rewrite <- List.seq_shift, List.map_map.
        apply List.map_ext. intros i. by rewrite Hcand.
      * intros [|k] Hk Hbefore Hk_free; [congruence|].
        rewrite <- Hcand.
        apply Hfree; [lia | | by rewrite Hcand].
        intros i Hi. rewrite Hcand. apply Hbefore. lia.
      * intros Hall. apply Hnone. intros i Hi. rewrite Hcand.
        apply Hall. lia.
    + exists 1. simpl. repeat split; [lia | |].
      * intros [|k] Hk Hbefore Hk_free; [done|].
        specialize (Hbefore 0 ltac:(lia)). congruence.
      * intros Hall. specialize (Hall 0 ltac:(lia)). congruence.
Qed.

End PureExists.

End Generation.

Section GenerationShape.
Context {S L : Type} {storage : StorageAdapter S}.

(** Whatever the backend answers, a code that the retry loop returns is
    one that [nanoid(6)] produced: six characters of the package's
    alphabet. *)
Lemma generateUniqueCode_loop_shape remaining attempts (w : World S L) code :
  fst (generateUniqueCode_loop remaining attempts w) = Ok code →
  length code = CODE_LENGTH ∧ List.Forall (λ c, List.In c urlAlphabet) code.
Proof.
  revert attempts w. induction remaining as [|remaining IH]; intros attempts w.
  - discriminate.
  - cbn [generateUniqueCode_loop]. unfold bind at 1.
    destruct (nanoid_shape CODE_LENGTH w) as (id & Hid & Hlen & Hin).
    destruct (nanoid CODE_LENGTH w) as [[id'|e] w1]; simpl in Hid;
      [|discriminate].
    injection Hid as ->. unfold bind at 1.
    destruct (urlExists id w1) as [[[|]|e] w2]; simpl.
    + unfold bind at 1. unfold log, modify. apply IH.
    + intros [= <-]. by split.
    + discriminate.
Qed.

End GenerationShape.

(** claim C1 (the code departs from it): [generateUniqueCode] and
    [generateCode()] call [nanoid(6)], which draws from the package's own
    64-symbol alphabet and not from [ALPHABET].  On a random source whose
    bytes all have the low six bits 8, and an empty store, both return the
    six-character code made of hyphens, which [isValidCodeFormat]
    rejects. *)
Theorem generateUniqueCode_leaves_ALPHABET :
  let w := Reference.fresh_world None [] (λ _, 8%N) in
  fst (generateUniqueCode w) = Ok (js "------")
  ∧ fst (generateCode_default w) = Ok (js "------")
  ∧ length (js "------") = 6
  ∧ includes_char ALPHABET 45 = false
  ∧ isValidCodeFormat (js "------") = false.
Proof. vm_compute. repeat split. Qed.

(** ** URL validation *)

Lemma startsWith_spec (s p : jsstring) :
  startsWith s p = true ↔ ∃ r, s = p ++ r.
Proof.
  revert s. induction p as [|a p IH]; intros s; simpl.
  - split; [intros _; by exists s | by destruct s].
  - destruct s as [|b s]; simpl.
    + split; [done | intros [r Hr]; discriminate].
    + rewrite andb_true_iff, IH, N.eqb_eq. split.
      * intros [-> [r ->]]. by exists r.
      * intros [r [= -> ->]]. split; [done | by exists r].
Qed.

Lemma endsWith_spec (s p : jsstring) :
  endsWith s p = true ↔ ∃ r, s = r ++ p.
Proof.
  unfold endsWith. rewrite startsWith_spec. split.
  - intros [r Hr]. exists (List.rev r).
    apply (f_equal (@List.rev N)) in Hr.
    by rewrite List.rev_involutive, List.rev_app_distr, List.rev_involutive in Hr.
  - intros [r ->]. exists (List.rev r). by rewrite List.rev_app_distr.
Qed.

Lemma eqb_spec (a b : jsstring) : eqb a b = true ↔ a = b.
Proof. unfold eqb. apply bool_decide_eq_true. Qed.

Lemma matches_domain_spec (h d : jsstring) :
  matches_domain h d = true ↔ is_or_under h d.
Proof.
  unfold matches_domain, is_or_under.
  by rewrite orb_true_iff, eqb_spec, endsWith_spec.
Qed.

Lemma existsb_Exists {A} (f : A → bool) (P : A → Prop) (l : list A) :
  (∀ x, f x = true ↔ P x) →
  List.existsb f l = true ↔ Exists P l.
Proof.
  intros Hf. induction l as [|x l IH]; simpl.
  - split; [done | by intros ?%Exists_nil].
  - by rewrite orb_true_iff, Exists_cons, Hf, IH.
Qed.

Section ValidatorFacts.
Context {platform : Platform}.

Lemma allowed_protocol_spec (proto : jsstring) :
  List.existsb (eqb proto) VALIDATION_CONFIG.ALLOWED_PROTOCOLS = true
  ↔ proto ∈ [js "http"; js "https"].
Proof.
  unfold VALIDATION_CONFIG.ALLOWED_PROTOCOLS. cbn [List.existsb].
  rewrite !orb_true_iff, !eqb_spec, !elem_of_cons, elem_of_nil.
  intuition congruence.
Qed.

Lemma blocked_spec (h : jsstring) :
  List.existsb (matches_domain h) VALIDATION_CONFIG.BLOCKED_DOMAINS = true
  ↔ Exists (is_or_under h) [js "localhost"; js "127.0.0.1"; js "0.0.0.0"].
Proof. apply existsb_Exists. intros d. apply matches_domain_spec. Qed.

(** The outcome of [validateUrl], rule by rule. *)
Lemma validateUrl_error_first_failure (url : jsstring) :
  first_failure (ordered_rules (trim url)) (error (validateUrl url)).
Proof.
  unfold validateUrl. set (t := trim url).
  cbn [first_failure ordered_rules].
  destruct (bool_decide (t = [])) eqn:He.
  { left. split; [by apply bool_decide_eq_true in He | done]. }
  apply bool_decide_eq_false in He. right. split; [done|].
  destruct (length t <? VALIDATION_CONFIG.MIN_LENGTH) eqn:Hmin.
  { left. apply Nat.ltb_lt in Hmin. by split. }
  apply Nat.ltb_ge in Hmin. right.
  split; [unfold VALIDATION_CONFIG.MIN_LENGTH in Hmin; lia|].
  destruct (VALIDATION_CONFIG.MAX_LENGTH <? length t) eqn:Hmax.
  { left. apply Nat.ltb_lt in Hmax. by split. }
  apply Nat.ltb_ge in Hmax. right.
  split; [unfold VALIDATION_CONFIG.MAX_LENGTH in Hmax; lia|].
  destruct (isURL t) eqn:Hfmt; cbn [negb].
  2: { left. split; [by left | done]. }
  destruct (new_URL t) as [u|] eqn:Hu.
  2: { left. split; [by right | done]. }
  right. split; [intros [?|?]; congruence|].
  destruct (List.existsb (eqb (removelast (protocol u)))
                         VALIDATION_CONFIG.ALLOWED_PROTOCOLS) eqn:Hp; cbn [negb].
  2: { left. split; [|done]. exists u. split; [done|].
       rewrite <- allowed_protocol_spec. congruence. }
  right. split.
  { intros (u' & [= <-] & Hno). apply Hno. by apply allowed_protocol_spec. }
  destruct (List.existsb (matches_domain (toLowerCase (hostname u)))
                         VALIDATION_CONFIG.BLOCKED_DOMAINS) eqn:Hb.
  - left. split; [|done]. exists u. split; [done|]. by apply blocked_spec.
  - right. split; [|done].
    intros (u' & [= <-] & Hyes). apply blocked_spec in Hyes. congruence.
Qed.

Lemma validateUrl_shape (url : jsstring) :
  (∃ e msg, validateUrl url = invalid e msg)
  ∨ (∃ u, new_URL (trim url) = Some u ∧ validateUrl url = valid (href u)).
Proof.
  unfold validateUrl.
  repeat match goal with
         | |- context [if ?b then _ else _] => destruct b; [left; eauto|]
         end.
  destruct (new_URL (trim url)) as [u|]; [|left; eauto].
  repeat match goal with
         | |- context [if ?b then _ else _] => destruct b; [left; eauto|]
         end.
  right. eauto.
Qed.

End ValidatorFacts.

(** claim C4: for every input, [validateUrl] reports the error of the
    first rule that fails, the rules being taken in the fixed order
    trim-and-empty, minimum length 10, maximum length 2048, URL format
    (the [isURL] constraints and the parse), protocol, block-list, the
    last one failing exactly when the lower-cased host name is, or ends
    with a dot followed by, localhost, 127.0.0.1 or 0.0.0.0; the input is
    valid exactly when no rule fails, and is then normalised to the
    serialisation of the parsed URL.  Nothing after the first failure is
    evaluated: the result does not depend on what the library calls of
    later rules would answer. *)
Theorem validateUrl_first_failing_rule (p : Platform) (url : jsstring) :
  let t := trim url in
  first_failure (ordered_rules t) (error (validateUrl url))
  ∧ (isValid (validateUrl url) = true ↔ error (validateUrl url) = None)
  ∧ (isValid (validateUrl url) = true →
     ∃ u, new_URL t = Some u ∧ normalizedUrl (validateUrl url) = Some (href u))
  ∧ (∀ q : Platform,
       (t = [] ∨ length t < 10 ∨ 2048 < length t →
        @validateUrl q url = @validateUrl p url)
       ∧ (same_isURL_at p q t → @isURL p t = false →
          @validateUrl q url = @validateUrl p url)
       ∧ (same_isURL_at p q t → same_URL_at p q t →
          (@new_URL p t = None
           ∨ ∃ u, @new_URL p t = Some u
                  ∧ removelast (protocol u) ∉ [js "http"; js "https"]) →
          @validateUrl q url = @validateUrl p url)).
Proof.
  intros t. split; [apply validateUrl_error_first_failure|].
  split; [|split].
  - destruct (validateUrl_shape url) as [(e & msg & ->)|(u & _ & ->)];
      simpl; split; congruence.
  - destruct (validateUrl_shape url) as [(e & msg & ->)|(u & Hu & ->)];
      simpl; [discriminate|]. intros _. by exists u.
  - intros q. unfold same_isURL_at, same_URL_at, validateUrl. fold t.
    split; [|split].
    + intros [->|[Hlen|Hlen]]; [done| |].
      * destruct (bool_decide (t = [])); [done|].
        apply Nat.ltb_lt in Hlen.
        unfold VALIDATION_CONFIG.MIN_LENGTH. by rewrite Hlen.
      * destruct (bool_decide (t = [])); [done|].
        destruct (length t <? VALIDATION_CONFIG.MIN_LENGTH); [done|].
        apply Nat.ltb_lt in Hlen.
        unfold VALIDATION_CONFIG.MAX_LENGTH. by rewrite Hlen.
    + intros Hsame Hfalse. rewrite <- Hsame, Hfalse. reflexivity.
    + intros Hsame Hurl Hfails. rewrite <- Hsame, <- Hurl.
      destruct (bool_decide (t = [])); [done|].
      destruct (length t <? VALIDATION_CONFIG.MIN_LENGTH); [done|].
      destruct (VALIDATION_CONFIG.MAX_LENGTH <? length t); [done|].
      destruct (@isURL p t); [|done]. cbn [negb].
      destruct Hfails as [->|(u & -> & Hproto)]; [done|].
      rewrite <- allowed_protocol_spec in Hproto.
      apply not_true_is_false in Hproto. by rewrite Hproto.
Qed.

Lemma validateUrl_first_failing_rule_witness :
  first_failure
    (@ordered_rules Reference.platform (js "http://Foo.LOCALHOST/x"))
    (Some BLOCKED_DOMAIN)
  ∧ @validateUrl (Build_Platform (λ _, true) (λ _, None) (λ h, h)) (js "http://a")
    = @validateUrl Reference.platform (js "http://a").
Proof.
  split.
  - exact (proj1 (validateUrl_first_failing_rule
                    Reference.platform (js "  http://Foo.LOCALHOST/x "))).
  - destruct (proj2 (proj2 (proj2 (validateUrl_first_failing_rule
                                     Reference.platform (js "http://a"))))
                     (Build_Platform (λ _, true) (λ _, None) (λ h, h)))
      as [Hearly _].
    apply Hearly. right. left. vm_compute. lia.
Defined.

(** ** The reference platform: parsing a serialisation *)

















(** *** Cutting and splitting *)



Lemma cut_char_cons c x s :
  Reference.cut_char c (x :: s)
  = if (x =? c)%N then ([], Some s)
    else (x :: fst (Reference.cut_char c s), snd (Reference.cut_char c s)).
Proof. simpl. by destruct (Reference.cut_char c s). Qed.


Lemma cut_char_none c a : c ∉ a → Reference.cut_char c a = (a, None).
Proof.
  induction a as [|x a IH]; intros Hc; [done|].
  apply not_elem_of_cons in Hc as [Hx Ha]. rewrite cut_char_cons.
  rewrite (proj2 (N.eqb_neq x c)) by done. by rewrite IH.
Qed.



Lemma before_none c a : c ∉ a → Reference.before c a = a.
Proof. intros. unfold Reference.before. by rewrite cut_char_none. Qed.









(** *** Percent-encoding *)















(** *** The path *)







(** *** The port *)


Lemma decimal_zero s : Reference.decimal (48%N :: s) = Reference.decimal s.
Proof. reflexivity. Qed.


(** *** Case of the host *)













(** *** Normal forms *)






(** *** The characters of a normal form *)






















(** *** [isURL] on a normal form *)

















(** *** What [isURL] has checked on an input that parses *)




(** *** Length and surrounding white space of a normal form *)








(** *** The validator on a normal form *)






(** ** Lookup and the redirect page *)

Lemma isValidCodeFormat_spec (code : jsstring) :
  isValidCodeFormat code = true ↔ well_formed code.
Proof.
  unfold isValidCodeFormat, well_formed, CODE_LENGTH.
  destruct (length code =? 6) eqn:Hlen; cbn [negb].
  - apply Nat.eqb_eq in Hlen. rewrite List.forallb_forall, List.Forall_forall.
    split.
    + intros H. split; [done|]. intros c Hc. specialize (H c Hc).
      unfold includes_char in H. apply List.existsb_exists in H.
      destruct H as (a & Ha & ->%N.eqb_eq). done.
    + intros [_ H] c Hc. unfold includes_char. apply List.existsb_exists.
      exists c. split; [by apply H | apply N.eqb_refl].
  - apply Nat.eqb_neq in Hlen. split; [done | by intros [? _]].
Qed.

Section LookupFacts.
Context {S L : Type} {storage : StorageAdapter S}.

Local Abbreviation W := (World S L).

Lemma storage_get_spec code (w : W) :
  storage_get code w
  = (fst (get code (w_store w)),
     after_call (CallGet code) (snd (get code (w_store w))) w).
Proof.
  unfold storage_get, bind, record_call, modify, on_store. simpl.
  by destruct (get code (w_store w)).
Qed.

Lemma getUrl_spec code (w : W) :
  getUrl code w
  = (match fst (get code (w_store w)) with
     | Ok (Some (Stored d)) =>
         Ok (if bool_decide (url d = []) then None else Some (url d))
     | Ok (Some (Inherited _)) => Ok None
     | Ok None => Ok None
     | Throw e => Throw e
     end,
     after_call (CallGet code) (snd (get code (w_store w))) w).
Proof.
  unfold getUrl, bind. rewrite storage_get_spec.
  by destruct (get code (w_store w)) as [[[[d|name]|]|e] s'].
Qed.

Lemma RedirectPage_malformed code (w : W) :
  isValidCodeFormat code = false →
  RedirectPage code w = (Throw NextNotFound, w).
Proof. intros H. unfold RedirectPage, bind. by rewrite H. Qed.

Lemma RedirectPage_well_formed code (w : W) :
  isValidCodeFormat code = true →
  RedirectPage code w
  = (match fst (get code (w_store w)) with
     | Ok (Some (Stored d)) =>
         Throw (if bool_decide (url d = []) then NextNotFound
                else NextRedirect (url d))
     | Ok (Some (Inherited _)) => Throw NextNotFound
     | Ok None => Throw NextNotFound
     | Throw e => if is_redirect_error e then Throw e else Throw NextNotFound
     end,
     let w' := after_call (CallGet code) (snd (get code (w_store w))) w in
     match fst (get code (w_store w)) with
     | Ok (Some (Stored d)) =>
         if bool_decide (url d = []) then
           snd (log (LogError "Error redirecting code" code NextNotFound) w')
         else w'
     | Ok (Some (Inherited _)) =>
         snd (log (LogError "Error redirecting code" code NextNotFound) w')
     | Ok None =>
         snd (log (LogError "Error redirecting code" code NextNotFound) w')
     | Throw e =>
         if is_redirect_error e then w'
         else snd (log (LogError "Error redirecting code" code e) w')
     end).
Proof.
  intros H. unfold RedirectPage. rewrite H. cbn [negb].
  unfold bind at 1. unfold ret at 1. unfold try_catch, bind at 1.
  rewrite getUrl_spec.
  destruct (get code (w_store w)) as [[[[d|name]|]|e] s']; cbn [fst snd].
  - destruct (bool_decide (url d = [])) eqn:Hd; [reflexivity|].
    rewrite Hd. reflexivity.
  - reflexivity.
  - reflexivity.
  - destruct (is_redirect_error e); reflexivity.
Qed.

End LookupFacts.

(** claim C9: when the record stored for a code has the empty string as
    its [url], [getUrl] returns null, which is also what it returns for a
    code that has no record: the two cases give the caller the same
    value. *)
Theorem getUrl_empty_url_is_absent
        {S L : Type} {storage : StorageAdapter S}
        (w : World S L) (code : jsstring) (r : UrlData) :
  fst (get code (w_store w)) = Ok (Some (Stored r)) →
  url r = [] →
  fst (getUrl code w) = Ok None
  ∧ (∀ w0 : World S L,
       fst (get code (w_store w0)) = Ok None →
       fst (getUrl code w0) = fst (getUrl code w)).
Proof.
  intros Hget Hurl. rewrite getUrl_spec, Hget. cbn [fst].
  rewrite bool_decide_eq_true_2 by done. split; [done|].
  intros w0 Hnone. by rewrite getUrl_spec, Hnone.
Qed.

Lemma getUrl_empty_url_is_absent_witness :
  let blank := Reference.fresh_world (Some {[ js "abc123" := blank_record ]})
                                     [] (λ _, 0%N) in
  let empty := Reference.fresh_world None [] (λ _, 0%N) in
  fst (getUrl (js "abc123") blank) = Ok None
  ∧ fst (getUrl (js "abc123") empty) = fst (getUrl (js "abc123") blank).
Proof.
  intros blank empty.
  destruct (getUrl_empty_url_is_absent blank (js "abc123") blank_record)
    as [Hnull Hsame]; [by vm_compute | done |].
  split; [exact Hnull|]. apply Hsame. by vm_compute.
Defined.

(** The claim C7 fails on the code where it says that a record always
    leads to a redirect: with a record whose [url] is empty stored under a
    well-formed code, [get] returns the record and the page signals
    not-found. *)
Lemma RedirectPage_record_without_redirect :
  let w := Reference.fresh_world (Some {[ js "abc123" := blank_record ]})
                                 [] (λ _, 0%N) in
  isValidCodeFormat (js "abc123") = true
  ∧ fst (get (js "abc123") (w_store w)) = Ok (Some (Stored blank_record))
  ∧ fst (RedirectPage (js "abc123") w) = Throw NextNotFound
  ∧ fst (RedirectPage (js "abc123") w)
    ≠ Throw (NextRedirect (url blank_record)).
Proof.
  intros w.
  assert (H : fst (RedirectPage (js "abc123") w) = Throw NextNotFound)
    by (by vm_compute).
  rewrite H. repeat split; by vm_compute.
Qed.

(** claim C7, amended: the redirect page signals not-found, without any
    storage call, when the code is not six characters of [ALPHABET];
    otherwise it makes exactly one storage call, a [get] of the code, and
    signals not-found when [get] returns null, when it raises an error
    that is not the framework's redirect signal, and when the record it
    returns has an empty [url]; when the record has a non-empty [url] it
    signals the framework's redirect to that URL.  It never calls [save]
    or [exists].  (A [get] that returns a member inherited from
    [Object.prototype], which has no [url], also ends in not-found.) *)
Theorem RedirectPage_outcomes
        {S L : Type} {storage : StorageAdapter S}
        (code : jsstring) (w : World S L) :
  (¬ well_formed code → RedirectPage code w = (Throw NextNotFound, w))
  ∧ (well_formed code →
     w_calls (snd (RedirectPage code w)) = w_calls w ++ [CallGet code]
     ∧ w_store (snd (RedirectPage code w)) = snd (get code (w_store w))
     ∧ (fst (get code (w_store w)) = Ok None →
        fst (RedirectPage code w) = Throw NextNotFound)
     ∧ (∀ e, fst (get code (w_store w)) = Throw e →
             is_redirect_error e = false →
             fst (RedirectPage code w) = Throw NextNotFound)
     ∧ (∀ r, fst (get code (w_store w)) = Ok (Some (Stored r)) →
             url r = [] →
             fst (RedirectPage code w) = Throw NextNotFound)
     ∧ (∀ r, fst (get code (w_store w)) = Ok (Some (Stored r)) →
             url r ≠ [] →
             fst (RedirectPage code w) = Throw (NextRedirect (url r)))
     ∧ (∀ name, fst (get code (w_store w)) = Ok (Some (Inherited name)) →
                fst (RedirectPage code w) = Throw NextNotFound)).
Proof.
  split.
  - intros Hbad. apply RedirectPage_malformed.
    apply not_true_is_false. by rewrite isValidCodeFormat_spec.
  - intros Hgood%isValidCodeFormat_spec.
    rewrite (RedirectPage_well_formed _ _ Hgood). cbn [fst snd].
    destruct (fst (get code (w_store w))) as [[[d|name]|]|e] eqn:Hget;
      [ destruct (bool_decide (url d = [])) eqn:Hd;
        [ apply bool_decide_eq_true in Hd | apply bool_decide_eq_false in Hd ]
      | | | destruct (is_redirect_error e) eqn:He ];
      split_and!; try done; intros; simplify_eq; try done; congruence.
Qed.

Lemma RedirectPage_outcomes_witness :
  let w := Reference.fresh_world (Some {[ js "abc123" := example_record ]})
                                 [] (λ _, 0%N) in
  RedirectPage (js "abc-23") w = (Throw NextNotFound, w)
  ∧ fst (RedirectPage (js "abc123") w)
    = Throw (NextRedirect (js "https://example.com/a"))
  ∧ fst (RedirectPage (js "zzz999") w) = Throw NextNotFound
  ∧ fst (@RedirectPage _ _ (VercelKV Reference.memory_kv)
                       (js "abc123") kv_down) = Throw NextNotFound.
Proof.
  intros w. split; [|split; [|split]].
  - apply (proj1 (RedirectPage_outcomes (js "abc-23") w)).
    rewrite <- isValidCodeFormat_spec. by vm_compute.
  - destruct (proj2 (RedirectPage_outcomes (js "abc123") w))
      as (_ & _ & _ & _ & _ & Hredirect & _).
    + rewrite <- isValidCodeFormat_spec. by vm_compute.
    + apply (Hredirect example_record); by vm_compute.
  - destruct (proj2 (RedirectPage_outcomes (js "zzz999") w))
      as (_ & _ & Habsent & _).
    + rewrite <- isValidCodeFormat_spec. by vm_compute.
    + apply Habsent. by vm_compute.
  - destruct (proj2 (@RedirectPage_outcomes
                       _ _ (VercelKV Reference.memory_kv) (js "abc123") kv_down))
      as (_ & _ & _ & Hraises & _).
    + rewrite <- isValidCodeFormat_spec. by vm_compute.
    + apply (Hraises (BackendError "kv unreachable")); by vm_compute.
Defined.

(** ** Rate limiting *)

Section MiddlewareFacts.
Context {S L : Type} {ratelimit : Ratelimit L}.

Local Abbreviation W := (World S L).

Lemma middleware_other_path request (w : W) :
  startsWith (pathname request) (js "/api/") = false →
  middleware request w = (Ok (NextResponse_next []), w).
Proof. intros H. unfold middleware. by rewrite H. Qed.

(** The middleware on an API request, by what the limiter does. *)
Lemma middleware_api request (w : W) :
  startsWith (pathname request) (js "/api/") = true →
  middleware request w
  = match ratelimit_limit (client_ip request) (w_limiter w) with
    | (Throw e, l') =>
        (Ok (NextResponse_next []),
         after_limiter_error l' (LogError "Rate limiting error:" [] e) w)
    | (Ok r, l') =>
        if (Z.abs (reset r) <=? 8640000000000000)%Z then
          (Ok (let headers :=
                 [("X-RateLimit-Limit", HNumber (limit r));
                  ("X-RateLimit-Remaining", HNumber (remaining r));
                  ("X-RateLimit-Reset", HIsoDate (reset r))]%string in
               if success r then NextResponse_next headers
               else NextResponse_json
                      (ErrorBody "RATE_LIMIT_EXCEEDED"
                         "Too many requests. Please try again later.")
                      429%N headers),
           set_limiter l' w)
        else
          (Ok (NextResponse_next []),
           after_limiter_error l'
             (LogError "Rate limiting error:" []
                       (RangeError "Invalid time value")) w)
    end.
Proof.
  intros H. unfold middleware. rewrite H.
  unfold try_catch, bind at 1, on_limiter.
  destruct (ratelimit_limit (client_ip request) (w_limiter w))
    as [[r|e] l']; [|reflexivity].
  unfold toISOString.
  destruct (success r), (Z.abs (reset r) <=? 8640000000000000)%Z;
    reflexivity.
Qed.

End MiddlewareFacts.

(** claim C8: on an API request, when the call to the limiter raises, the
    middleware lets the request through with no header added and writes
    the error to the console; it never throws; and the only response it
    produces itself is the 429 with code RATE_LIMIT_EXCEEDED and the three
    X-RateLimit headers, which it produces only when the limiter call
    returned and reported [success = false]. *)
Theorem middleware_fails_open
        {S L : Type} {ratelimit : Ratelimit L}
        (request : NextRequest) (w : World S L) :
  startsWith (pathname request) (js "/api/") = true →
  (∀ e l',
     ratelimit_limit (client_ip request) (w_limiter w) = (Throw e, l') →
     middleware request w
     = (Ok (NextResponse_next []),
        after_limiter_error l' (LogError "Rate limiting error:" [] e) w))
  ∧ (∀ body status headers,
       fst (middleware request w) = Ok (NextResponse_json body status headers) →
       status = 429%N
       ∧ body = ErrorBody "RATE_LIMIT_EXCEEDED"
                          "Too many requests. Please try again later."
       ∧ ∃ r l',
           ratelimit_limit (client_ip request) (w_limiter w) = (Ok r, l')
           ∧ success r = false
           ∧ headers = [("X-RateLimit-Limit", HNumber (limit r));
                        ("X-RateLimit-Remaining", HNumber (remaining r));
                        ("X-RateLimit-Reset", HIsoDate (reset r))]%string)
  ∧ (∃ response, fst (middleware request w) = Ok response).
Proof.
  intros Hapi. rewrite (middleware_api _ _ Hapi).
  destruct (ratelimit_limit (client_ip request) (w_limiter w))
    as [[r|e] l'] eqn:Hlimit.
  - destruct (Z.abs (reset r) <=? 8640000000000000)%Z;
      [destruct (success r) eqn:Hs|];
      split_and!; try done; eauto; intros; simplify_eq/=; eauto 10.
  - split_and!; try done; eauto. intros; by simplify_eq.
Qed.

Lemma middleware_fails_open_witness :
  let down := Reference.fresh_world None [] (λ _, 0%N) in
  let busy := Reference.fresh_world None [Ok over_cap] (λ _, 0%N) in
  fst (middleware (shorten_request (js "https://example.com/a")) down)
  = Ok (NextResponse_next [])
  ∧ w_console
      (snd (middleware (shorten_request (js "https://example.com/a")) down))
    = [LogError "Rate limiting error:" []
                (BackendError "limiter unreachable")]
  ∧ ∃ body headers,
      fst (middleware (shorten_request (js "https://example.com/a")) busy)
      = Ok (NextResponse_json body 429%N headers).
Proof.
  intros down busy.
  destruct (middleware_fails_open
              (shorten_request (js "https://example.com/a")) down)
    as (Hopen & _ & _); [by vm_compute|].
  specialize (Hopen (BackendError "limiter unreachable") []
                    ltac:(by vm_compute)).
  rewrite Hopen. split; [done|]. split; [done|].
  eexists _, _. by vm_compute.
Defined.

(** ** The creation endpoint *)

Section OrchestratorFacts.
Context {S L : Type} {storage : StorageAdapter S} {ratelimit : Ratelimit L}
        {platform : Platform}.

Local Abbreviation W := (World S L).

(** [shorten_valid] never throws, and answers with a success or with one
    of its two 500 responses. *)
Lemma shorten_valid_cases request validation (w : W) :
  ∃ response,
    fst (shorten_valid request validation w) = Ok response
    ∧ ((∃ shortUrl code headers,
          response = NextResponse_json (SuccessBody shortUrl code) 200%N headers)
       ∨ response = error_response "CODE_GENERATION_FAILED"
                      "Unable to generate short code. Please try again." 500%N
       ∨ response = error_response "STORAGE_ERROR"
                      "Failed to save URL. Please try again." 500%N).
Proof.
  unfold shorten_valid. unfold bind at 1. unfold try_catch at 1.
  unfold bind at 1.
  destruct (generateUniqueCode w) as [[shortCode|e] w1]; cbn.
  - unfold bind at 1. unfold try_catch at 1. unfold bind at 1.
    destruct (saveUrl shortCode _ w1) as [[[]|e] w2]; cbn;
      eexists; (split; [reflexivity|]); eauto 10.
  - eexists. split; [reflexivity|]. eauto.
Qed.

Lemma shorten_valid_generation_failure request validation (w : W) e :
  fst (generateUniqueCode w) = Throw e →
  fst (shorten_valid request validation w)
  = Ok (error_response "CODE_GENERATION_FAILED"
          "Unable to generate short code. Please try again." 500%N).
Proof.
  intros H. unfold shorten_valid. unfold bind at 1. unfold try_catch at 1.
  unfold bind at 1.
  destruct (generateUniqueCode w) as [[shortCode|e'] w1]; [discriminate|].
  reflexivity.
Qed.

(** [POST] on a body whose [url] is a non-empty string. *)
Lemma POST_string_url request s (w : W) :
  body request = BodyValue (JString s) →
  s ≠ [] →
  fst (POST request w)
  = match validateUrl s with
    | {| isValid := false; error := e; message := msg |} =>
        Ok (error_response (from_option errorCodeMap "undefined"%string e)
                           (default "Invalid URL"%string msg) 400%N)
    | validation => fst (shorten_valid request validation w)
    end.
Proof.
  intros Hbody Hs. unfold POST, request_json. rewrite Hbody.
  unfold try_catch at 1 2. unfold bind at 1 2. cbn [ret].
  unfold bind at 1. cbn [body_url ret truthy is_string string_value].
  rewrite (bool_decide_eq_false_2 _ Hs). cbn [negb orb].
  destruct (validateUrl s) as [[|] e msg n] eqn:Hv; cbn [isValid negb].
  - destruct (shorten_valid_cases request
                {| isValid := true; error := e; message := msg;
                   normalizedUrl := n |} w) as (response & Hr & _).
    destruct (shorten_valid _ _ w) as [[r|e'] w']; [done|discriminate].
  - reflexivity.
Qed.

(** [POST] never throws; the pair of code and status of any failure it
    answers with is one of those that [route.ts] contains. *)
Lemma POST_cases request (w : W) :
  ∃ response,
    fst (POST request w) = Ok response
    ∧ ((∃ shortUrl code headers,
          response = NextResponse_json (SuccessBody shortUrl code) 200%N headers)
       ∨ ∃ code message status,
           response = error_response code message status
           ∧ (code, status) ∈ implemented_taxonomy).
Proof.
  unfold implemented_taxonomy.
  destruct (body request) as [| |[| |[|]|n|s|]] eqn:Hbody.
  1-6,9: unfold POST, request_json; rewrite Hbody;
    unfold try_catch, bind; cbn;
    eexists; (split; [reflexivity|]); right; eexists _, _, _;
    (split; [reflexivity|]); set_solver.
  - unfold POST, request_json; rewrite Hbody;
      unfold try_catch, bind; cbn.
    destruct (n =? 0)%Z; cbn;
      eexists; (split; [reflexivity|]); right; eexists _, _, _;
      (split; [reflexivity|]); set_solver.
  - destruct (decide (s = [])) as [->|Hs].
    + unfold POST, request_json; rewrite Hbody;
        unfold try_catch, bind; cbn.
      eexists; (split; [reflexivity|]); right; eexists _, _, _;
        (split; [reflexivity|]); set_solver.
    + rewrite (POST_string_url _ _ _ Hbody Hs).
      destruct (validateUrl_shape s) as [(e & msg & ->)|(u & _ & ->)];
        unfold valid, invalid; cbv beta iota.
      * eexists; (split; [reflexivity|]); right; eexists _, _, _;
          (split; [reflexivity|]). destruct e; set_solver.
      * pose proof (shorten_valid_cases request (valid (href u)) w) as Hcases.
        unfold valid in Hcases.
        destruct Hcases as (response & -> & [Hok|[->| ->]]).
        -- eexists. split; [reflexivity|]. by left.
        -- eexists; (split; [reflexivity|]); right; eexists _, _, _;
             (split; [reflexivity|]); set_solver.
        -- eexists; (split; [reflexivity|]); right; eexists _, _, _;
             (split; [reflexivity|]); set_solver.
Qed.

End OrchestratorFacts.

Lemma trim_nonempty (s : jsstring) : trim s ≠ [] → s ≠ [].
Proof. intros H ->. by apply H. Qed.

Section EndpointFacts.
Context {S L : Type} {storage : StorageAdapter S} {ratelimit : Ratelimit L}
        {platform : Platform}.

Local Abbreviation W := (World S L).

Lemma middleware_cases request (w : W) :
  ∃ response w',
    middleware request w = (Ok response, w')
    ∧ ((∃ headers, response = NextResponse_next headers)
       ∨ ∃ headers,
           response = NextResponse_json
                        (ErrorBody "RATE_LIMIT_EXCEEDED"
                           "Too many requests. Please try again later.")
                        429%N headers).
Proof.
  destruct (startsWith (pathname request) (js "/api/")) eqn:Hapi.
  - rewrite (middleware_api _ _ Hapi).
    destruct (ratelimit_limit (client_ip request) (w_limiter w))
      as [[r|e] l'].
    + destruct (Z.abs (reset r) <=? 8640000000000000)%Z;
        [destruct (success r)|]; eexists _, _; (split; [reflexivity|]);
        eauto.
    + eexists _, _. split; [reflexivity|]. eauto.
  - rewrite (middleware_other_path _ _ Hapi).
    eexists _, _. split; [reflexivity|]. eauto.
Qed.

(** The endpoint never throws, and every failure it answers with
    carries a code and status of the implemented taxonomy. *)
Lemma creation_endpoint_cases method request (w : W) :
  ∃ response,
    fst (creation_endpoint method request w) = Ok response
    ∧ ∀ code message status headers,
        response = NextResponse_json (ErrorBody code message) status headers →
        (code, status) ∈ implemented_taxonomy.
Proof.
  unfold creation_endpoint, bind.
  destruct (middleware_cases request w)
    as (r & w' & -> & [[headers ->]|[headers ->]]).
  - destruct method.
    + destruct (POST_cases request w')
        as (response & Hr & [(u & c & h & Heq)|(c & m & st & Heq & Hin)]);
        exists response; (split; [exact Hr|]); rewrite Heq;
        intros ? ? ? ? [=]; by subst.
    + eexists. split; [reflexivity|].
      intros ? ? ? ? [= <- <- <- <-]. unfold implemented_taxonomy. set_solver.
    + eexists. split; [reflexivity|].
      intros ? ? ? ? [= <- <- <- <-]. unfold implemented_taxonomy. set_solver.
    + eexists. split; [reflexivity|].
      intros ? ? ? ? [= <- <- <- <-]. unfold implemented_taxonomy. set_solver.
  - eexists. split; [reflexivity|].
    intros ? ? ? ? [= <- <- <- <-]. unfold implemented_taxonomy. set_solver.
Qed.

End EndpointFacts.

(** claim C2: [generateUniqueCode] makes at most five attempts, each one a
    fresh candidate followed by one [exists] call, and calls nothing else
    on the storage interface; over a backend whose [exists] reads the
    store, it returns the first of the five candidates that is absent (so
    the fifth when the first four are taken), and when all five are taken
    it throws the exhaustion error, which [POST] answers with status 500
    and code CODE_GENERATION_FAILED. *)
Theorem generateUniqueCode_bounded_retries
        {S L : Type} {storage : StorageAdapter S} {platform : Platform}
        (present : jsstring → S → bool)
        (exists_reads : ∀ c s, exists_ c s = (Ok (present c s), s))
        (w : World S L) :
  let taken i := present (candidate w i) (w_store w) in
  (∃ n, n ≤ 5
        ∧ w_calls (snd (generateUniqueCode w))
          = w_calls w
            ++ List.map (λ i, CallExists (candidate w i)) (List.seq 0 n))
  ∧ w_store (snd (generateUniqueCode w)) = w_store w
  ∧ (∀ k, k < 5 →
          (∀ i, i < k → taken i = true) →
          taken k = false →
          fst (generateUniqueCode w) = Ok (candidate w k))
  ∧ ((∀ i, i < 5 → taken i = true) →
     fst (generateUniqueCode w) = Throw exhausted
     ∧ ∀ request s,
         body request = BodyValue (JString s) →
         s ≠ [] →
         isValid (validateUrl s) = true →
         fst (POST request w)
         = Ok (error_response "CODE_GENERATION_FAILED"
                 "Unable to generate short code. Please try again." 500%N)).
Proof.
  intros taken. unfold generateUniqueCode.
  destruct (generateUniqueCode_loop_run present exists_reads MAX_RETRIES 0 w)
    as (n & Hn & Hstore & Hcalls & Hfree & Hnone).
  split; [by exists n|]. split; [exact Hstore|]. split; [exact Hfree|].
  intros Hall. split; [by apply Hnone|].
  intros request s Hbody Hs Hvalid.
  rewrite (POST_string_url _ _ _ Hbody Hs).
  destruct (validateUrl s) as [[|] e msg norm]; [|discriminate].
  apply (shorten_valid_generation_failure _ _ _ exhausted).
  by apply Hnone.
Qed.

Lemma generateUniqueCode_bounded_retries_witness :
  let full : Parsed := Some {[ js "uuuuuu" := example_record ]} in
  fst (generateUniqueCode (Reference.fresh_world full [] four_then_fresh))
  = Ok (js "ssssss")
  ∧ fst (@POST _ _ _ Reference.platform
               (shorten_request (js "https://example.com/a"))
               (Reference.fresh_world full [] (λ _, 0%N)))
    = Ok (error_response "CODE_GENERATION_FAILED"
            "Unable to generate short code. Please try again." 500%N).
Proof.
  intros full.
  split.
  - destruct (@generateUniqueCode_bounded_retries
                _ (list (result RatelimitResponse)) _ Reference.platform
                present_in_file local_exists_spec
                (Reference.fresh_world full [] four_then_fresh))
      as (_ & _ & Hfree & _).
    apply (Hfree 4); [lia | | by vm_compute].
    intros i Hi. do 4 (destruct i as [|i]; [by vm_compute|]). lia.
  - destruct (@generateUniqueCode_bounded_retries
                _ (list (result RatelimitResponse)) _ Reference.platform
                present_in_file local_exists_spec
                (Reference.fresh_world full [] (λ _, 0%N)))
      as (_ & _ & _ & Hnone).
    destruct Hnone as [_ Hpost].
    + intros i Hi. do 5 (destruct i as [|i]; [by vm_compute|]). lia.
    + apply (Hpost _ (js "https://example.com/a")); by vm_compute.
Defined.

(** The claim C3 fails on the code: a URL that is too short is answered
    with the code URL_TOO_SHORT, and an input that is not a URL with
    INVALID_URL_FORMAT; neither is a code of the claimed taxonomy. *)
Lemma creation_endpoint_outside_claimed_taxonomy :
  let w := Reference.fresh_world None [Ok under_cap; Ok under_cap] (λ _, 0%N) in
  fst (@creation_endpoint _ _ _ _ Reference.platform MPOST
         (shorten_request (js "http://a")) w)
  = Ok (error_response "URL_TOO_SHORT"
          "URL must be at least 10 characters long" 400%N)
  ∧ fst (@creation_endpoint _ _ _ _ Reference.platform MPOST
           (shorten_request (js "not a url at all")) w)
    = Ok (error_response "INVALID_URL_FORMAT"
            "Please enter a valid URL starting with http:// or https://"
            400%N)
  ∧ (("URL_TOO_SHORT"%string, 400%N) ∉ claimed_taxonomy)
  ∧ (("INVALID_URL_FORMAT"%string, 400%N) ∉ claimed_taxonomy).
Proof.
  intros w. split; [by vm_compute|]. split; [by vm_compute|].
  split; apply (bool_decide_unpack _); by vm_compute.
Qed.

(** claim C3, amended: the creation endpoint never throws, and every
    failure response it gives carries one of the codes EMPTY_URL,
    URL_TOO_SHORT, URL_TOO_LONG, INVALID_URL_FORMAT, INVALID_PROTOCOL,
    BLOCKED_DOMAIN, INVALID_JSON, MISSING_URL (each with status 400),
    CODE_GENERATION_FAILED, STORAGE_ERROR, INTERNAL_ERROR (500),
    RATE_LIMIT_EXCEEDED (429) or METHOD_NOT_ALLOWED (405); a too-short URL
    is answered with URL_TOO_SHORT and an input that [isURL] rejects or
    that does not parse with INVALID_URL_FORMAT. *)
Theorem creation_endpoint_error_taxonomy
        {S L : Type} {storage : StorageAdapter S} {ratelimit : Ratelimit L}
        {platform : Platform}
        (method : Method) (request : NextRequest) (w : World S L) :
  (∃ response, fst (creation_endpoint method request w) = Ok response)
  ∧ (∀ code message status headers,
       fst (creation_endpoint method request w)
       = Ok (NextResponse_json (ErrorBody code message) status headers) →
       (code, status) ∈ implemented_taxonomy)
  ∧ (∀ s, body request = BodyValue (JString s) →
          trim s ≠ [] →
          length (trim s) < 10 →
          fst (POST request w)
          = Ok (error_response "URL_TOO_SHORT"
                  "URL must be at least 10 characters long" 400%N))
  ∧ (∀ s, body request = BodyValue (JString s) →
          10 ≤ length (trim s) ≤ 2048 →
          isURL (trim s) = false ∨ new_URL (trim s) = None →
          ∃ message,
            fst (POST request w)
            = Ok (error_response "INVALID_URL_FORMAT" message 400%N)).
Proof.
  destruct (creation_endpoint_cases method request w) as (response & Hr & Hin).
  split; [by exists response|]. split.
  { intros code message status headers Heq. rewrite Hr in Heq.
    injection Heq as ->. by eapply Hin. }
  split.
  - intros s Hbody Hne Hshort.
    rewrite (POST_string_url _ _ _ Hbody (trim_nonempty _ Hne)).
    unfold validateUrl. rewrite (bool_decide_eq_false_2 _ Hne).
    apply Nat.ltb_lt in Hshort. unfold VALIDATION_CONFIG.MIN_LENGTH.
    by rewrite Hshort.
  - intros s Hbody [Hmin Hmax] Hbad.
    assert (trim s ≠ []) as Hne by (intros E; rewrite E in Hmin; simpl in Hmin; lia).
    rewrite (POST_string_url _ _ _ Hbody (trim_nonempty _ Hne)).
    unfold validateUrl. rewrite (bool_decide_eq_false_2 _ Hne).
    assert ((length (trim s) <? VALIDATION_CONFIG.MIN_LENGTH) = false) as ->
      by (apply Nat.ltb_ge; unfold VALIDATION_CONFIG.MIN_LENGTH; lia).
    assert ((VALIDATION_CONFIG.MAX_LENGTH <? length (trim s)) = false) as ->
      by (apply Nat.ltb_ge; unfold VALIDATION_CONFIG.MAX_LENGTH; lia).
    destruct (isURL (trim s)) eqn:Hfmt; cbn [negb]; [|by eexists].
    destruct Hbad as [? | ->]; [congruence|]. by eexists.
Qed.

Lemma creation_endpoint_error_taxonomy_witness :
  let w := Reference.fresh_world None [Ok over_cap] (λ _, 0%N) in
  ("RATE_LIMIT_EXCEEDED"%string, 429%N) ∈ implemented_taxonomy
  ∧ fst (@POST _ _ _ Reference.platform (shorten_request (js "http://a")) w)
    = Ok (error_response "URL_TOO_SHORT"
            "URL must be at least 10 characters long" 400%N)
  ∧ ∃ message,
      fst (@POST _ _ _ Reference.platform
                 (shorten_request (js "not a url at all")) w)
      = Ok (error_response "INVALID_URL_FORMAT" message 400%N).
Proof.
  intros w. split; [|split].
  - destruct (@creation_endpoint_error_taxonomy
                _ _ _ _ Reference.platform MPOST
                (shorten_request (js "https://example.com/a")) w)
      as (_ & Hin & _).
    eapply Hin. by vm_compute.
  - destruct (@creation_endpoint_error_taxonomy
                _ _ _ _ Reference.platform MPOST
                (shorten_request (js "http://a")) w)
      as (_ & _ & Hshort & _).
    apply (Hshort (js "http://a")); [done | by vm_compute | vm_compute; lia].
  - destruct (@creation_endpoint_error_taxonomy
                _ _ _ _ Reference.platform MPOST
                (shorten_request (js "not a url at all")) w)
      as (_ & _ & _ & Hformat).
    apply (Hformat (js "not a url at all"));
      [done | vm_compute; lia | left; by vm_compute].
Defined.

(* ===================================================================== *)
(** * Further properties of the code *)
(* ===================================================================== *)

(** ** Trimming *)

Lemma trimStart_whitespace (ws s : jsstring) :
  List.forallb is_whitespace ws = true → trimStart (ws ++ s) = trimStart s.
Proof.
  induction ws as [|c ws IH]; [done|]. simpl.
  intros [Hc Hws]%andb_true_iff. rewrite Hc. by apply IH.
Qed.

Lemma trimStart_all_whitespace (ws : jsstring) :
  List.forallb is_whitespace ws = true → trimStart ws = [].
Proof.
  intros H. rewrite <- (app_nil_r ws). by rewrite trimStart_whitespace.
Qed.

Lemma trimStart_split (s : jsstring) :
  ∃ ws, List.forallb is_whitespace ws = true ∧ s = ws ++ trimStart s.
Proof.
  induction s as [|c s (ws & Hws & Hs)]; [by exists []|]. simpl.
  destruct (is_whitespace c) eqn:Hc.
  - exists (c :: ws). simpl. rewrite Hc, Hws. split; [done|]. by f_equal.
  - by exists [].
Qed.

(** [trimStart] either empties the string or leaves it starting with a
    character that is not white space. *)
Lemma trimStart_head (s : jsstring) :
  trimStart s = []
  ∨ ∃ c rest, trimStart s = c :: rest ∧ is_whitespace c = false.
Proof.
  induction s as [|c s IH]; [by left|]. simpl.
  destruct (is_whitespace c) eqn:Hc; [exact IH|]. right. by exists c, s.
Qed.

Lemma trimStart_app_nonempty (s t : jsstring) :
  trimStart s ≠ [] → trimStart (s ++ t) = trimStart s ++ t.
Proof.
  induction s as [|c s IH]; [done|]. simpl.
  destruct (is_whitespace c); [exact IH | done].
Qed.

Lemma forallb_rev {A} (f : A → bool) (l : list A) :
  List.forallb f (List.rev l) = List.forallb f l.
Proof.
  induction l as [|x l IH]; [done|]. simpl.
  rewrite List.forallb_app, IH. simpl. rewrite andb_true_r. apply andb_comm.
Qed.

Lemma trimEnd_whitespace (s ws : jsstring) :
  List.forallb is_whitespace ws = true → trimEnd (s ++ ws) = trimEnd s.
Proof.
  intros H. unfold trimEnd. rewrite List.rev_app_distr.
  rewrite trimStart_whitespace; [done|]. by rewrite forallb_rev.
Qed.

Lemma trimEnd_split (s : jsstring) :
  ∃ ws, List.forallb is_whitespace ws = true ∧ s = trimEnd s ++ ws.
Proof.
  destruct (trimStart_split (List.rev s)) as (ws & Hws & Hs).
  exists (List.rev ws). rewrite forallb_rev. split; [done|].
  unfold trimEnd. rewrite <- List.rev_app_distr, <- Hs.
  by rewrite List.rev_involutive.
Qed.

(** White space around a string does not change what [trim] returns. *)
Lemma trim_padding (ws1 ws2 s : jsstring) :
  List.forallb is_whitespace ws1 = true →
  List.forallb is_whitespace ws2 = true →
  trim (ws1 ++ s ++ ws2) = trim s.
Proof.
  intros H1 H2. unfold trim. rewrite trimStart_whitespace by done.
  destruct (trimStart_head s) as [He|(c & rest & Hc & Hcw)].
  - destruct (trimStart_split s) as (ws & Hws & Hs).
    rewrite He, app_nil_r in Hs. subst s.
    rewrite He, trimStart_all_whitespace; [done|].
    by rewrite List.forallb_app, Hws, H2.
  - rewrite trimStart_app_nonempty by (rewrite Hc; done).
    by apply trimEnd_whitespace.
Qed.

Lemma trim_idempotent (s : jsstring) : trim (trim s) = trim s.
Proof.
  destruct (trimStart_split s) as (ws1 & H1 & Hs1).
  destruct (trimEnd_split (trimStart s)) as (ws2 & H2 & Hs2).
  fold (trim s) in Hs2. rewrite Hs2 in Hs1.
  rewrite Hs1 at 2. symmetry. by apply trim_padding.
Qed.

(** ** The validator's three entry points *)

Lemma validateUrl_of_trim {platform : Platform} (u v : jsstring) :
  trim u = trim v → validateUrl u = validateUrl v.
Proof. intros H. unfold validateUrl. by rewrite H. Qed.

(** X1: white space before and after the input changes nothing: the strict
    validator, the quick check and the normaliser give the same result
    with and without it. *)
Theorem validator_ignores_padding
        (platform : Platform) (ws1 ws2 url : jsstring) :
  List.forallb is_whitespace ws1 = true →
  List.forallb is_whitespace ws2 = true →
  validateUrl (ws1 ++ url ++ ws2) = validateUrl url
  ∧ isValidUrlFormat (ws1 ++ url ++ ws2) = isValidUrlFormat url
  ∧ normalizeUrl (ws1 ++ url ++ ws2) = normalizeUrl url.
Proof.
  intros H1 H2. pose proof (trim_padding ws1 ws2 url H1 H2) as Ht.
  split; [by apply validateUrl_of_trim|].
  unfold isValidUrlFormat, normalizeUrl. by rewrite Ht.
Qed.

Lemma validator_ignores_padding_witness :
  @validateUrl Reference.platform
     ([9; 32; 160]%N ++ js "https://Example.com/a" ++ [13; 10; 8232]%N)
  = valid (js "https://example.com/a").
Proof.
  rewrite (proj1 (validator_ignores_padding
                    Reference.platform [9; 32; 160]%N [13; 10; 8232]%N
                    (js "https://Example.com/a")
                    ltac:(by vm_compute) ltac:(by vm_compute))).
  by vm_compute.
Defined.

(** X2: whenever [validateUrl] accepts an input, the normalised URL it
    returns is the one [normalizeUrl] returns for the same input. *)
Theorem normalizeUrl_agrees_with_validateUrl
        (platform : Platform) (url : jsstring) :
  isValid (validateUrl url) = true →
  normalizedUrl (validateUrl url) = Some (normalizeUrl url).
Proof.
  intros Hvalid.
  destruct (validateUrl_shape url) as [(e & msg & Hv)|(u & Hu & Hv)];
    rewrite Hv in *; [discriminate|].
  unfold normalizeUrl. by rewrite Hu.
Qed.

Lemma normalizeUrl_agrees_with_validateUrl_witness :
  normalizedUrl (@validateUrl Reference.platform (js " http://Example.com "))
  = Some (@normalizeUrl Reference.platform (js " http://Example.com "))
  ∧ @normalizeUrl Reference.platform (js " http://Example.com ")
    = js "http://example.com/".
Proof.
  split; [|by vm_compute].
  apply (normalizeUrl_agrees_with_validateUrl Reference.platform).
  by vm_compute.
Defined.

Lemma matches_letter_spec (c : N) (l : ascii) :
  matches_letter c (String l EmptyString) = true
  ↔ ascii_lower c = N_of_ascii l.
Proof.
  unfold matches_letter. rewrite bool_decide_eq_true.
  change (js (String l EmptyString)) with [N_of_ascii l].
  split; [by intros [= ->] | by intros ->].
Qed.

Lemma matches_after_scheme_spec (s : jsstring) :
  matches_after_scheme s = true
  ↔ ∃ c rest, s = js "://" ++ c :: rest ∧ is_line_terminator c = false.
Proof.
  unfold matches_after_scheme. rewrite andb_true_iff, startsWith_spec. split.
  - intros [[r ->] Hc]. change (drop 3 (js "://" ++ r)) with r in Hc.
    destruct r as [|c rest]; [done|]. apply negb_true_iff in Hc.
    by exists c, rest.
  - intros (c & rest & -> & Hc). split; [by eexists|].
    change (negb (is_line_terminator c) = true). by rewrite Hc.
Qed.

Lemma urlRegex_test_spec (t : jsstring) :
  urlRegex_test t = true ↔ has_http_prefix t.
Proof.
  unfold has_http_prefix. split.
  - destruct t as [|h [|t1 [|t2 [|p rest]]]]; try done.
    unfold urlRegex_test.
    rewrite !andb_true_iff, orb_true_iff, !matches_letter_spec.
    intros [[[[Hh Ht1] Ht2] Hp] Hrest].
    destruct Hrest as [Hs|Hplain].
    + destruct rest as [|s' rest']; [done|].
      apply andb_true_iff in Hs as [Hs Hafter].
      apply matches_letter_spec in Hs.
      apply matches_after_scheme_spec in Hafter as (c & r & -> & Hc).
      exists [h; t1; t2; p; s'], c, r. split; [done|]. split; [|done].
      simpl. rewrite Hh, Ht1, Ht2, Hp, Hs. set_solver.
    + apply matches_after_scheme_spec in Hplain as (c & r & -> & Hc).
      exists [h; t1; t2; p], c, r. split; [done|]. split; [|done].
      simpl. rewrite Hh, Ht1, Ht2, Hp. set_solver.
  - intros (scheme & c & r & -> & Hscheme & Hc).
    assert (Hafter : matches_after_scheme (js "://" ++ c :: r) = true)
      by (apply matches_after_scheme_spec; eauto).
    apply elem_of_cons in Hscheme as [Hhttp|Hhttps%list_elem_of_singleton].
    + destruct scheme as [|h [|t1 [|t2 [|p [|]]]]]; try done.
      injection Hhttp as Hh Ht1 Ht2 Hp.
      unfold urlRegex_test. cbn [app].
      rewrite !andb_true_iff, orb_true_iff, !matches_letter_spec.
      split; [by repeat split|]. by right.
    + destruct scheme as [|h [|t1 [|t2 [|p [|s' [|]]]]]]; try done.
      injection Hhttps as Hh Ht1 Ht2 Hp Hs.
      unfold urlRegex_test. cbn [app].
      rewrite !andb_true_iff, orb_true_iff, !matches_letter_spec.
      split; [by repeat split|]. left.
      apply andb_true_iff. by rewrite matches_letter_spec.
Qed.

Lemma isValidUrlFormat_iff (url : jsstring) :
  isValidUrlFormat url = true
  ↔ 10 ≤ length (trim url) ≤ 2048 ∧ has_http_prefix (trim url).
Proof.
  unfold isValidUrlFormat, VALIDATION_CONFIG.MIN_LENGTH,
    VALIDATION_CONFIG.MAX_LENGTH.
  rewrite !andb_true_iff, !Nat.leb_le, urlRegex_test_spec. tauto.
Qed.

(** X3: the quick check accepts exactly the inputs whose trimmed form has
    between 10 and 2048 characters and begins with http:// or https://, in
    any letter case, followed by a character that is not a line
    terminator; nothing after that character is looked at.  The message
    function of the input form lets through exactly these inputs. *)
Theorem isValidUrlFormat_characterised (url : jsstring) :
  (isValidUrlFormat url = true
   ↔ 10 ≤ length (trim url) ≤ 2048 ∧ has_http_prefix (trim url))
  ∧ (validateInput url = None ↔ isValidUrlFormat url = true).
Proof.
  split; [apply isValidUrlFormat_iff|].
  unfold validateInput.
  destruct (bool_decide (trim url = [])) eqn:He.
  - apply bool_decide_eq_true in He. split; [done|].
    intros [[Hmin _] _]%isValidUrlFormat_iff.
    rewrite He in Hmin. simpl in Hmin. lia.
  - destruct (isValidUrlFormat url); simpl; split; done.
Qed.

(** X4: an input that the quick check accepts passes the empty and length
    rules of the strict validator, whatever the library answers: the only
    errors [validateUrl] can still report are INVALID_FORMAT,
    INVALID_PROTOCOL and BLOCKED_DOMAIN. *)
Theorem quick_check_passes_length_rules
        (platform : Platform) (url : jsstring) (e : ValidationError) :
  isValidUrlFormat url = true →
  error (validateUrl url) = Some e →
  e = INVALID_FORMAT ∨ e = INVALID_PROTOCOL ∨ e = BLOCKED_DOMAIN.
Proof.
  intros [[Hmin Hmax] _]%isValidUrlFormat_iff.
  assert (trim url ≠ []) as Hne
    by (intros E; rewrite E in Hmin; simpl in Hmin; lia).
  unfold validateUrl. rewrite (bool_decide_eq_false_2 _ Hne).
  assert ((length (trim url) <? VALIDATION_CONFIG.MIN_LENGTH) = false) as ->
    by (apply Nat.ltb_ge; unfold VALIDATION_CONFIG.MIN_LENGTH; lia).
  assert ((VALIDATION_CONFIG.MAX_LENGTH <? length (trim url)) = false) as ->
    by (apply Nat.ltb_ge; unfold VALIDATION_CONFIG.MAX_LENGTH; lia).
  destruct (negb (isURL (trim url))); [intros [= <-]; tauto|].
  destruct (new_URL (trim url)) as [u|]; [|intros [= <-]; tauto].
  repeat match goal with
         | |- context [if ?b then _ else _] =>
             destruct b; [intros [= <-]; tauto|]
         end.
  discriminate.
Qed.

Lemma quick_check_passes_length_rules_witness :
  isValidUrlFormat (js "HTTP://localhost/x") = true
  ∧ error (@validateUrl Reference.platform (js "HTTP://localhost/x"))
    = Some INVALID_FORMAT.
Proof.
  assert (Hquick : isValidUrlFormat (js "HTTP://localhost/x") = true)
    by (by vm_compute).
  split; [exact Hquick|].
  destruct (quick_check_passes_length_rules
              Reference.platform (js "HTTP://localhost/x") INVALID_FORMAT
              Hquick ltac:(by vm_compute)) as [H|[H|H]];
    by vm_compute.
Defined.

(** ** Short codes *)

Lemma is_alphanumeric_spec (c : N) : is_alphanumeric c = true ↔ alphanumeric c.
Proof.
  unfold is_alphanumeric, alphanumeric.
  rewrite !orb_true_iff, !andb_true_iff, !N.leb_le. tauto.
Qed.

(** [ALPHABET] holds exactly the alphanumeric characters. *)
Lemma includes_char_ALPHABET (c : N) :
  includes_char ALPHABET c = is_alphanumeric c.
Proof.
  destruct (decide (c < 123)%N) as [Hlt|Hge].
  - assert (Hall : List.forallb
                     (λ n, Bool.eqb (includes_char ALPHABET (N.of_nat n))
                                    (is_alphanumeric (N.of_nat n)))
                     (List.seq 0 123) = true) by (by vm_compute).
    rewrite List.forallb_forall in Hall.
    specialize (Hall (N.to_nat c)).
    rewrite N2Nat.id in Hall. apply Bool.eqb_prop, Hall.
    apply List.in_seq. lia.
  - transitivity false.
    + unfold includes_char.
      apply not_true_is_false. intros (x & Hx & ->%N.eqb_eq)%List.existsb_exists.
      assert (Hsmall : List.Forall (λ x, (x < 123)%N) ALPHABET).
      { apply List.Forall_forall. intros y Hy.
        assert (Hb : List.forallb (λ y, (y <? 123)%N) ALPHABET = true)
          by (by vm_compute).
        rewrite List.forallb_forall in Hb. by apply N.ltb_lt, Hb. }
      rewrite List.Forall_forall in Hsmall. specialize (Hsmall _ Hx). lia.
    + symmetry. apply not_true_is_false.
      rewrite is_alphanumeric_spec. unfold alphanumeric. lia.
Qed.

Lemma in_ALPHABET (c : N) : List.In c ALPHABET ↔ alphanumeric c.
Proof.
  rewrite <- is_alphanumeric_spec, <- includes_char_ALPHABET.
  unfold includes_char. rewrite List.existsb_exists. split.
  - intros H. exists c. split; [done | apply N.eqb_refl].
  - by intros (x & Hx & ->%N.eqb_eq).
Qed.

Lemma in_urlAlphabet (c : N) : List.In c urlAlphabet → url_safe c.
Proof.
  intros Hc.
  assert (Hb : List.forallb (λ x, is_alphanumeric x || (x =? 45)%N || (x =? 95)%N)
                            urlAlphabet = true) by (by vm_compute).
  rewrite List.forallb_forall in Hb. specialize (Hb c Hc).
  rewrite !orb_true_iff, is_alphanumeric_spec, !N.eqb_eq in Hb.
  unfold url_safe. tauto.
Qed.

(** X5: [isValidCodeFormat] accepts exactly the strings of six characters
    that are all digits, upper-case or lower-case ASCII letters. *)
Theorem isValidCodeFormat_alphanumeric (code : jsstring) :
  isValidCodeFormat code = true
  ↔ length code = 6 ∧ List.Forall alphanumeric code.
Proof.
  unfold isValidCodeFormat, CODE_LENGTH.
  destruct (length code =? 6) eqn:Hlen; cbn [negb].
  - apply Nat.eqb_eq in Hlen.
    rewrite List.forallb_forall, List.Forall_forall. split.
    + intros H. split; [done|]. intros c Hc.
      apply is_alphanumeric_spec. rewrite <- includes_char_ALPHABET. by apply H.
    + intros [_ H] c Hc. rewrite includes_char_ALPHABET.
      apply is_alphanumeric_spec. by apply H.
  - apply Nat.eqb_neq in Hlen. split; [done | by intros [? _]].
Qed.

Section GenerationOutcome.
Context {S L : Type} {storage : StorageAdapter S}.
Variable present : jsstring → S → bool.
Hypothesis exists_reads : ∀ c s, exists_ c s = (Ok (present c s), s).

(** The complete outcome of the retry loop over a backend whose [exists]
    reads the store: [m] collisions, then either a free candidate or the
    end of the attempts. *)
Lemma generateUniqueCode_loop_outcome remaining attempts (w : World S L) :
  ∃ m,
    m ≤ remaining
    ∧ (∀ i, i < m → present (candidate w i) (w_store w) = true)
    ∧ w_console (snd (generateUniqueCode_loop remaining attempts w))
      = w_console w
        ++ List.map (λ i, WarnCollision (candidate w i) (attempts + Datatypes.S i))
                    (List.seq 0 m)
    ∧ ((m < remaining
        ∧ present (candidate w m) (w_store w) = false
        ∧ fst (generateUniqueCode_loop remaining attempts w)
          = Ok (candidate w m)
        ∧ w_cursor (snd (generateUniqueCode_loop remaining attempts w))
          = w_cursor w + CODE_LENGTH * Datatypes.S m)
       ∨ (m = remaining
          ∧ fst (generateUniqueCode_loop remaining attempts w) = Throw exhausted
          ∧ w_cursor (snd (generateUniqueCode_loop remaining attempts w))
            = w_cursor w + CODE_LENGTH * remaining)).
Proof.
  revert attempts w.
  induction remaining as [|remaining IH]; intros attempts w.
  - exists 0. simpl. rewrite app_nil_r. split; [lia|]. split; [lia|].
    split; [done|]. right. unfold CODE_LENGTH. repeat split; try done; lia.
  - rewrite (generateUniqueCode_loop_step present exists_reads).
    destruct (present (candidate w 0) (w_store w)) eqn:Hp.
    + set (w3 := after_collision (Datatypes.S attempts) w).
      destruct (IH (Datatypes.S attempts) w3)
        as (m & Hm & Htaken & Hconsole & Hend).
      assert (Hcand : ∀ i, candidate w3 i = candidate w (Datatypes.S i))
        by (intros i; by apply candidate_advance).
      exists (Datatypes.S m). split; [lia|]. split.
      { intros [|i] Hi; [done|]. rewrite <- Hcand. apply Htaken. lia. }
      split.
      { rewrite Hconsole. simpl. rewrite <- app_assoc. simpl.
        rewrite Nat.add_1_r. do 2 f_equal.
        rewrite <- List.seq_shift, List.map_map.
        apply List.map_ext. intros i. rewrite Hcand. f_equal. lia. }
      destruct Hend as [(Hlt & Hfree & Hres & Hcur)|(-> & Hres & Hcur)].
      * left. rewrite <- Hcand. split; [lia|]. split; [exact Hfree|].
        split; [exact Hres|]. rewrite Hcur. simpl. unfold CODE_LENGTH. lia.
      * right. split; [done|]. split; [exact Hres|].
        rewrite Hcur. simpl. unfold CODE_LENGTH. lia.
    + exists 0. simpl. rewrite app_nil_r. split; [lia|]. split; [lia|].
      split; [done|]. left. unfold CODE_LENGTH. repeat split; try done; lia.
Qed.

End GenerationOutcome.

(** X7: over a backend whose [exists] reads the store, a code that
    [generateUniqueCode] returns has no record in the store, and the call
    leaves the store as it was. *)
Theorem generateUniqueCode_returns_absent_code
        {S L : Type} {storage : StorageAdapter S}
        (present : jsstring → S → bool)
        (exists_reads : ∀ c s, exists_ c s = (Ok (present c s), s))
        (w : World S L) (code : jsstring) :
  fst (generateUniqueCode w) = Ok code →
  present code (w_store w) = false
  ∧ w_store (snd (generateUniqueCode w)) = w_store w.
Proof.
  unfold generateUniqueCode. intros Hcode.
  destruct (generateUniqueCode_loop_outcome present exists_reads MAX_RETRIES 0 w)
    as (m & _ & _ & _ & [(_ & Hfree & Hres & _)|(_ & Hres & _)]);
    rewrite Hres in Hcode; [|discriminate].
  injection Hcode as <-. split; [exact Hfree|].
  by destruct (generateUniqueCode_loop_run present exists_reads MAX_RETRIES 0 w)
    as (n & _ & Hstore & _).
Qed.

Lemma generateUniqueCode_returns_absent_code_witness :
  let full : Parsed := Some {[ js "uuuuuu" := example_record ]} in
  present_in_file (js "ssssss") (on_disk full) = false.
Proof.
  intros full.
  apply (@generateUniqueCode_returns_absent_code
           _ (list (result RatelimitResponse)) _
           present_in_file local_exists_spec
           (Reference.fresh_world full [] four_then_fresh) (js "ssssss")).
  by vm_compute.
Defined.

(** X8: over such a backend every collision is written to the console
    with the candidate and its attempt number, counted from 1, and nothing
    else is; a call that ends after [m] collisions has consumed six random
    bytes for each of its [m + 1] attempts, and thirty when it gives up. *)
Theorem generateUniqueCode_logs_collisions
        {S L : Type} {storage : StorageAdapter S}
        (present : jsstring → S → bool)
        (exists_reads : ∀ c s, exists_ c s = (Ok (present c s), s))
        (w : World S L) :
  ∃ m,
    m ≤ 5
    ∧ (∀ i, i < m → present (candidate w i) (w_store w) = true)
    ∧ w_console (snd (generateUniqueCode w))
      = w_console w
        ++ List.map (λ i, WarnCollision (candidate w i) (Datatypes.S i))
                    (List.seq 0 m)
    ∧ ((m < 5
        ∧ fst (generateUniqueCode w) = Ok (candidate w m)
        ∧ w_cursor (snd (generateUniqueCode w)) = w_cursor w + 6 * (m + 1))
       ∨ (m = 5
          ∧ fst (generateUniqueCode w) = Throw exhausted
          ∧ w_cursor (snd (generateUniqueCode w)) = w_cursor w + 30)).
Proof.
  unfold generateUniqueCode.
  destruct (generateUniqueCode_loop_outcome present exists_reads MAX_RETRIES 0 w)
    as (m & Hm & Htaken & Hconsole & Hend).
  exists m. split; [exact Hm|]. split; [exact Htaken|].
  split; [exact Hconsole|].
  destruct Hend as [(Hlt & _ & Hres & Hcur)|(-> & Hres & Hcur)].
  - left. split; [exact Hlt|]. split; [exact Hres|].
    rewrite Hcur. unfold CODE_LENGTH. lia.
  - right. split; [done|]. split; [exact Hres|]. rewrite Hcur. done.
Qed.

Lemma generateUniqueCode_logs_collisions_witness :
  let full : Parsed := Some {[ js "uuuuuu" := example_record ]} in
  let w := Reference.fresh_world full [] four_then_fresh in
  w_console (snd (generateUniqueCode w))
  = [WarnCollision (js "uuuuuu") 1; WarnCollision (js "uuuuuu") 2;
     WarnCollision (js "uuuuuu") 3; WarnCollision (js "uuuuuu") 4]
  ∧ w_cursor (snd (generateUniqueCode w)) = 30.
Proof.
  intros full w.
  destruct (@generateUniqueCode_logs_collisions
              _ (list (result RatelimitResponse)) _
              present_in_file local_exists_spec w)
    as (m & _ & _ & _ & _).
  by vm_compute.
Defined.

(** X9: whatever the backend, a code that [generateUniqueCode] returns is
    accepted by [isValidCodeFormat], and so can be resolved by the
    redirect page, exactly when it contains neither a hyphen nor an
    underscore. *)
Theorem generated_code_valid_iff
        {S L : Type} {storage : StorageAdapter S}
        (w : World S L) (code : jsstring) :
  fst (generateUniqueCode w) = Ok code →
  (isValidCodeFormat code = true ↔ (45%N ∉ code) ∧ (95%N ∉ code)).
Proof.
  intros Hcode.
  destruct (generateUniqueCode_loop_shape _ _ _ _ Hcode) as [Hlen Hin].
  rewrite isValidCodeFormat_spec. unfold well_formed, CODE_LENGTH in *.
  rewrite List.Forall_forall in Hin. split.
  - intros [_ Hall]. rewrite List.Forall_forall in Hall.
    split; intros Hc%list_elem_of_In; apply Hall, in_ALPHABET in Hc;
      unfold alphanumeric in Hc; lia.
  - intros [Hh Hu]. split; [done|]. apply List.Forall_forall.
    intros c Hc. apply in_ALPHABET.
    destruct (in_urlAlphabet c (Hin c Hc)) as [Hok|[->| ->]]; [done| |];
      exfalso; [apply Hh | apply Hu]; by apply list_elem_of_In.
Qed.

Lemma generated_code_valid_iff_witness :
  isValidCodeFormat (js "uuuuuu") = true
  ∧ isValidCodeFormat (js "------") = false.
Proof.
  split.
  - apply (generated_code_valid_iff
             (Reference.fresh_world None [] (λ _, 0%N)) (js "uuuuuu")
             ltac:(by vm_compute)).
    split; apply (bool_decide_unpack _); by vm_compute.
  - apply not_true_is_false.
    intros [Hh _]%(generated_code_valid_iff
                     (Reference.fresh_world None [] (λ _, 8%N)) (js "------")
                     ltac:(by vm_compute)).
    apply Hh. by left.
Defined.

Section StorageCalls.
Context {S L : Type} {storage : StorageAdapter S}.

Lemma storage_exists_spec code (w : World S L) :
  urlExists code w
  = (fst (exists_ code (w_store w)),
     after_call (CallExists code) (snd (exists_ code (w_store w))) w).
Proof.
  unfold urlExists, storage_exists, bind, record_call, modify, on_store. simpl.
  by destruct (exists_ code (w_store w)).
Qed.

Lemma saveUrl_spec code target (w : World S L) :
  saveUrl code target w
  = (let data := {| url := target; createdAt := w_now w; expiresAt := None |} in
     (fst (save code data (w_store w)),
      after_call (CallSave code data) (snd (save code data (w_store w))) w)).
Proof.
  unfold saveUrl, bind, gets, storage_save, record_call, modify, on_store.
  cbn -[save].
  destruct (save code _ (w_store w)) as [r s']. reflexivity.
Qed.

(** When the first [exists] call raises, the loop stops there. *)
Lemma generateUniqueCode_first_check_raises (w : World S L) e s' :
  exists_ (candidate w 0) (w_store w) = (Throw e, s') →
  generateUniqueCode w
  = (Throw e,
     after_call (CallExists (candidate w 0)) s' (advance CODE_LENGTH w)).
Proof.
  intros Hraise. unfold generateUniqueCode, MAX_RETRIES.
  cbn [generateUniqueCode_loop]. unfold bind at 1. rewrite nanoid_spec.
  unfold bind at 1. rewrite storage_exists_spec.
  rewrite <- candidate_zero.
  change (w_store (advance CODE_LENGTH w)) with (w_store w).
  by rewrite Hraise.
Qed.

End StorageCalls.

(** ** The creation handler, step by step *)

Section GenerationFrame.
Context {S L : Type} {storage : StorageAdapter S}.

(** Whatever the backend does, the retry loop leaves the clock, the
    configured origin, the limiter and the random source as they were. *)
Lemma generateUniqueCode_loop_frame remaining attempts (w : World S L) res w' :
  generateUniqueCode_loop remaining attempts w = (res, w') →
  w_now w' = w_now w ∧ w_app_url w' = w_app_url w
  ∧ w_limiter w' = w_limiter w ∧ w_random w' = w_random w.
Proof.
  revert attempts w. induction remaining as [|remaining IH]; intros attempts w.
  - by intros [= <- <-].
  - cbn [generateUniqueCode_loop]. unfold bind at 1. rewrite nanoid_spec.
    unfold bind at 1. rewrite storage_exists_spec.
    destruct (exists_ _ (w_store (advance CODE_LENGTH w))) as [[[|]|e] s'];
      cbn [fst snd negb].
    + unfold bind at 1. unfold log, modify. intros H%IH. exact H.
    + by intros [= <- <-].
    + by intros [= <- <-].
Qed.

End GenerationFrame.

Section PostFacts.
Context {S L : Type} {storage : StorageAdapter S} {platform : Platform}.

(** [POST] on a body that does not carry a non-empty string as [url]. *)
Lemma POST_without_url request (w : World S L) :
  (∀ s, body request = BodyValue (JString s) → s = []) →
  POST request w
  = match body request with
    | BodyInvalid =>
        (Ok (error_response "INVALID_JSON" "Invalid JSON in request body" 400%N),
         w)
    | BodyNull =>
        (Ok (error_response "INTERNAL_ERROR"
               "An unexpected error occurred. Please try again." 500%N),
         snd (log (LogError "Unexpected error in shorten API:" []
                            (TypeError "Cannot read properties of null")) w))
    | BodyValue _ =>
        (Ok (error_response "MISSING_URL" "URL is required" 400%N), w)
    end.
Proof.
  intros Hno. unfold POST, request_json.
  destruct (body request) as [| |[| |[|]|n|s|]] eqn:Hbody;
    try reflexivity.
  - unfold try_catch, bind. cbn. by destruct (n =? 0)%Z.
  - rewrite (Hno s eq_refl). reflexivity.
Qed.

(** [POST] on a body whose [url] is a non-empty string, with the world it
    leaves behind. *)
Lemma POST_with_url request s (w : World S L) :
  body request = BodyValue (JString s) →
  s ≠ [] →
  POST request w
  = if isValid (validateUrl s) then shorten_valid request (validateUrl s) w
    else (Ok (error_response
                (from_option errorCodeMap "undefined"%string
                             (error (validateUrl s)))
                (default "Invalid URL"%string (message (validateUrl s)))
                400%N),
          w).
Proof.
  intros Hbody Hs. unfold POST, request_json. rewrite Hbody.
  unfold try_catch at 1 2. unfold bind at 1 2. cbn [ret].
  unfold bind at 1. cbn [body_url ret truthy is_string string_value].
  rewrite (bool_decide_eq_false_2 _ Hs). cbn [negb orb].
  destruct (isValid (validateUrl s)); cbn [negb]; [|reflexivity].
  destruct (shorten_valid_cases request (validateUrl s) w)
    as (response & Hr & _).
  by destruct (shorten_valid request (validateUrl s) w) as [[r|e] w'].
Qed.

End PostFacts.

Lemma url_value_cases (v : JsValue) :
  (∃ s, v = JString s ∧ s ≠ []) ∨ (∀ s, v = JString s → s = []).
Proof.
  destruct v as [| |b|n|s|]; try (right; intros s' [=]; done).
  destruct (decide (s = [])) as [->|Hs]; [right; by intros s' [= <-]|].
  left. by exists s.
Qed.

(** X10: a request that [POST] answers with status 400 has no effect at
    all: no storage call, no random byte drawn, no console line; the world
    is left exactly as it was. *)
Theorem POST_rejection_has_no_effect
        {S L : Type} {storage : StorageAdapter S} {platform : Platform}
        (request : NextRequest) (w : World S L)
        (answer : ResponseBody) (headers : list (string * HeaderValue)) :
  fst (POST request w) = Ok (NextResponse_json answer 400%N headers) →
  snd (POST request w) = w.
Proof.
  destruct (body request) as [| |v] eqn:Hbody.
  - rewrite POST_without_url by (intros s; by rewrite Hbody). by rewrite Hbody.
  - rewrite POST_without_url by (intros s; by rewrite Hbody).
    rewrite Hbody. discriminate.
  - destruct (url_value_cases v) as [(s & -> & Hs)|Hno].
    + rewrite (POST_with_url _ _ _ Hbody Hs).
      destruct (isValid (validateUrl s)); [|done].
      destruct (shorten_valid_cases request (validateUrl s) w)
        as (response & Hr & [(u & c & h & ->)|[->| ->]]);
        rewrite Hr; discriminate.
    + rewrite POST_without_url; [by rewrite Hbody|].
      intros s. rewrite Hbody. intros [= ->]. by apply Hno.
Qed.

Lemma POST_rejection_has_no_effect_witness :
  let w := Reference.fresh_world None [] (λ _, 0%N) in
  snd (@POST _ _ _ Reference.platform (shorten_request (js "http://localhost/x")) w)
  = w.
Proof.
  intros w.
  apply (@POST_rejection_has_no_effect
           _ _ _ Reference.platform _ w
           (ErrorBody "INVALID_URL_FORMAT"
              "Please enter a valid URL starting with http:// or https://") []).
  by vm_compute.
Defined.

(** X11: [POST] answers with INTERNAL_ERROR exactly when the request body
    is the JSON value null; every other failure inside the handler is
    caught before it reaches the outer handler. *)
Theorem POST_internal_error_iff_null_body
        {S L : Type} {storage : StorageAdapter S} {platform : Platform}
        (request : NextRequest) (w : World S L) :
  (∃ message status headers,
     fst (POST request w)
     = Ok (NextResponse_json (ErrorBody "INTERNAL_ERROR" message) status headers))
  ↔ body request = BodyNull.
Proof.
  split.
  - intros (message & status & headers & Hr).
    destruct (body request) as [| |v] eqn:Hbody; [|done|].
    + rewrite POST_without_url in Hr by (intros s; by rewrite Hbody).
      rewrite Hbody in Hr. discriminate.
    + destruct (url_value_cases v) as [(s & -> & Hs)|Hno].
      * rewrite (POST_with_url _ _ _ Hbody Hs) in Hr.
        destruct (validateUrl_shape s) as [(e & msg & Hv)|(u & _ & Hv)];
          rewrite Hv in Hr; cbn [isValid invalid valid] in Hr.
        -- destruct e; discriminate.
        -- destruct (shorten_valid_cases request (valid (href u)) w)
             as (response & Hr' & [(u' & c & h & ->)|[->| ->]]);
             rewrite Hr' in Hr; discriminate.
      * rewrite POST_without_url in Hr.
        -- rewrite Hbody in Hr. discriminate.
        -- intros s. rewrite Hbody. intros [= ->]. by apply Hno.
  - intros Hbody. rewrite POST_without_url by (intros s; by rewrite Hbody).
    rewrite Hbody. by eexists _, _, _.
Qed.

(** X12: when the first [exists] call raises, [generateUniqueCode] does
    not try again: it throws that error after one storage call and six
    random bytes, without a console line, and [POST] answers a valid URL
    with status 500 and the code CODE_GENERATION_FAILED, never calling
    [save]. *)
Theorem storage_failure_during_check_not_retried
        {S L : Type} {storage : StorageAdapter S} {platform : Platform}
        (w : World S L) (e : Exn) (s' : S) :
  exists_ (candidate w 0) (w_store w) = (Throw e, s') →
  generateUniqueCode w
  = (Throw e, after_call (CallExists (candidate w 0)) s' (advance CODE_LENGTH w))
  ∧ ∀ request s,
      body request = BodyValue (JString s) →
      s ≠ [] →
      isValid (validateUrl s) = true →
      fst (POST request w)
      = Ok (error_response "CODE_GENERATION_FAILED"
              "Unable to generate short code. Please try again." 500%N)
      ∧ w_calls (snd (POST request w))
        = w_calls w ++ [CallExists (candidate w 0)].
Proof.
  intros Hraise.
  pose proof (generateUniqueCode_first_check_raises w e s' Hraise) as Hgen.
  split; [exact Hgen|].
  intros request s Hbody Hs Hvalid.
  rewrite (POST_with_url _ _ _ Hbody Hs), Hvalid.
  assert (Hsv : shorten_valid request (validateUrl s) w
                = (Ok (error_response "CODE_GENERATION_FAILED"
                         "Unable to generate short code. Please try again."
                         500%N),
                   snd (log (LogError "Failed to generate unique code:" [] e)
                            (after_call (CallExists (candidate w 0)) s'
                                        (advance CODE_LENGTH w))))).
  { unfold shorten_valid. unfold bind at 1. unfold try_catch at 1.
    unfold bind at 1. rewrite Hgen. reflexivity. }
  rewrite Hsv. split; done.
Qed.

Lemma storage_failure_during_check_not_retried_witness :
  fst (@POST _ _ (VercelKV Reference.memory_kv) Reference.platform
             (shorten_request (js "https://example.com/a")) kv_down)
  = Ok (error_response "CODE_GENERATION_FAILED"
          "Unable to generate short code. Please try again." 500%N)
  ∧ w_calls (snd (@POST _ _ (VercelKV Reference.memory_kv) Reference.platform
                        (shorten_request (js "https://example.com/a")) kv_down))
    = [CallExists (js "uuuuuu")].
Proof.
  destruct (@storage_failure_during_check_not_retried
              _ _ (VercelKV Reference.memory_kv) Reference.platform
              kv_down (BackendError "kv unreachable") None
              ltac:(by vm_compute)) as [_ Hpost].
  apply (Hpost _ (js "https://example.com/a")); by vm_compute.
Defined.

(** ** Creation on the local adapter *)

Section LocalCreation.
Context {L : Type} {platform : Platform}.

Lemma shorten_valid_local (request : NextRequest) (validation : ValidationResult)
      (w w1 : World DataFile L) (code : jsstring) :
  generateUniqueCode w = (Ok code, w1) →
  shorten_valid request validation w
  = (let data := new_record w1 (default [] (normalizedUrl validation)) in
     let w2 := after_call (CallSave code data)
                          (snd (save code data (w_store w1))) w1 in
     match fst (save code data (w_store w1)) with
     | Ok _ =>
         (Ok (NextResponse_json
                (SuccessBody (base_url request w1 ++ js "/" ++ code) code) 200%N
                [("Cache-Control",
                  HText "no-cache, no-store, must-revalidate")]%string),
          w2)
     | Throw e =>
         (Ok (error_response "STORAGE_ERROR"
                "Failed to save URL. Please try again." 500%N),
          snd (log (LogError "Failed to save URL:" [] e) w2))
     end).
Proof.
  intros Hgen. unfold shorten_valid. unfold bind at 1. unfold try_catch at 1.
  unfold bind at 1. rewrite Hgen. cbn [ret]. cbv beta iota.
  unfold bind at 1. unfold try_catch at 1. unfold bind at 1.
  rewrite saveUrl_spec. cbv zeta. unfold new_record.
  destruct (save code _ (w_store w1)) as [[[]|e] file']; cbn [fst snd ret];
    cbv beta iota; reflexivity.
Qed.

(** What a successful [POST] did, on the local adapter. *)
Lemma POST_success_local (request : NextRequest) (w : World DataFile L)
      (shortUrl code : jsstring) (headers : list (string * HeaderValue)) :
  fst (POST request w)
  = Ok (NextResponse_json (SuccessBody shortUrl code) 200%N headers) →
  ∃ s target,
    body request = BodyValue (JString s)
    ∧ validateUrl s = valid target
    ∧ contents (w_store w) !! code = None
    ∧ w_store (snd (POST request w))
      = on_disk (Some (<[code := new_record w target]> (contents (w_store w))))
    ∧ shortUrl = base_url request w ++ js "/" ++ code
    ∧ fst (generateUniqueCode w) = Ok code.
Proof.
  intros Hr.
  destruct (body request) as [| |v] eqn:Hbody.
  1,2: rewrite POST_without_url in Hr by (intros s; by rewrite Hbody);
       rewrite Hbody in Hr; discriminate.
  destruct (url_value_cases v) as [(s & -> & Hs)|Hno].
  2: { rewrite POST_without_url in Hr.
       - rewrite Hbody in Hr. discriminate.
       - intros s. rewrite Hbody. intros [= ->]. by apply Hno. }
  rewrite (POST_with_url _ _ _ Hbody Hs) in Hr |- *.
  destruct (validateUrl_shape s) as [(e & msg & Hv)|(u & _ & Hv)];
    rewrite Hv in Hr |- *; cbn [isValid invalid valid] in Hr |- *;
    [discriminate|].
  destruct (generateUniqueCode w) as [[c|e] w1] eqn:Hgen.
  2: { rewrite (shorten_valid_generation_failure _ _ _ e) in Hr;
         [discriminate | by rewrite Hgen]. }
  rewrite (shorten_valid_local _ _ _ _ _ Hgen) in Hr |- *.
  cbv zeta in Hr |- *. cbn [normalizedUrl valid default] in Hr |- *.
  unfold id in Hr |- *.
  destruct (save c (new_record w1 (href u)) (w_store w1))
    as [[[]|e] file'] eqn:Hsave; cbn [fst snd] in Hr |- *; [|discriminate].
  apply local_save_inv in Hsave as [_ ->].
  injection Hr as <- <- <-.
  destruct (generateUniqueCode_loop_frame _ _ _ _ _ Hgen)
    as (Hnow & Happ & _ & _).
  pose proof (generateUniqueCode_loop_run present_in_file local_exists_spec
                MAX_RETRIES 0 w) as (n & _ & Hstore & _).
  pose proof (generateUniqueCode_loop_outcome present_in_file local_exists_spec
                MAX_RETRIES 0 w) as (m & _ & _ & _ & Hend).
  fold (generateUniqueCode w) in Hstore, Hend. rewrite Hgen in Hstore, Hend.
  cbn [fst snd] in Hstore, Hend.
  assert (contents (w_store w) !! c = None ∧ c ∉ Object_prototype_names)
    as [Hnone Hown].
  { destruct Hend as [(_ & Hfree & [= ->] & _)|(_ & [=] & _)].
    by apply present_in_file_false. }
  exists s, (href u). split; [done|]. split; [done|].
  split; [exact Hnone|].
  split.
  { simpl. unfold new_record. rewrite Hstore, Hnow. f_equal. f_equal.
    apply assign_own. left. intros ->. apply Hown.
    apply (bool_decide_unpack _). by vm_compute. }
  split; [|done].
  unfold base_url. by rewrite Happ.
Qed.

End LocalCreation.

(** X13: on the local adapter a successful [POST] adds exactly one record:
    the code it reports had no record before, the new mapping is the old
    one with that code set to the normalised URL and the current time,
    every record that was there is still there unchanged, and the short
    URL is the configured origin (or, without one, the protocol and host
    of the request), a slash, and the code. *)
Theorem POST_success_adds_one_record
        {L : Type} {platform : Platform}
        (request : NextRequest) (w : World DataFile L)
        (shortUrl code : jsstring) (headers : list (string * HeaderValue)) :
  fst (POST request w)
  = Ok (NextResponse_json (SuccessBody shortUrl code) 200%N headers) →
  ∃ s target,
    body request = BodyValue (JString s)
    ∧ validateUrl s = valid target
    ∧ contents (w_store w) !! code = None
    ∧ contents (w_store (snd (POST request w)))
      = <[code := new_record w target]> (contents (w_store w))
    ∧ (∀ c r, contents (w_store w) !! c = Some r →
              contents (w_store (snd (POST request w))) !! c = Some r)
    ∧ shortUrl = base_url request w ++ js "/" ++ code.
Proof.
  intros Hr.
  destruct (POST_success_local _ _ _ _ _ Hr)
    as (s & target & Hbody & Hv & Hfresh & Hstore & Hshort & _).
  exists s, target. rewrite Hstore, contents_on_disk.
  repeat (split; [done|]). split; [|done].
  intros c r Hc. rewrite lookup_insert_ne; [done|]. intros <-. congruence.
Qed.

Lemma POST_success_adds_one_record_witness :
  let w := Reference.fresh_world (Some {[ js "ssssss" := other_record ]})
                                 [] (λ _, 0%N) in
  let w' := snd (@POST _ _ _ Reference.platform
                       (shorten_request (js " https://Example.com/a ")) w) in
  contents (w_store w') !! js "uuuuuu"
  = Some (new_record w (js "https://example.com/a"))
  ∧ contents (w_store w') !! js "ssssss" = Some other_record.
Proof.
  intros w w'.
  destruct (@POST_success_adds_one_record
              _ Reference.platform
              (shorten_request (js " https://Example.com/a ")) w
              (js "https://sho.rt/uuuuuu") (js "uuuuuu")
              [("Cache-Control", HText "no-cache, no-store, must-revalidate")]%string
              ltac:(by vm_compute))
    as (s & target & Hbody & Hv & _ & Hstore & Hkept & _).
  injection Hbody as <-.
  assert (target = js "https://example.com/a") as ->
    by (apply (f_equal normalizedUrl) in Hv; vm_compute in Hv;
        injection Hv as <-; by vm_compute).
  split.
  - fold w' in Hstore. rewrite Hstore. apply lookup_insert_eq.
  - apply Hkept. by vm_compute.
Defined.

(** X14: on the local adapter, the code that a successful [POST] reports
    resolves on the redirect page to the normalised URL that was
    submitted, provided the code passes [isValidCodeFormat]; when it does
    not (it contains a hyphen or an underscore) the redirect page answers
    not-found for the link that was just created. *)
Theorem created_link_resolves_iff_code_valid
        {L : Type} {platform : Platform}
        (request : NextRequest) (w : World DataFile L)
        (shortUrl code : jsstring) (headers : list (string * HeaderValue)) :
  fst (POST request w)
  = Ok (NextResponse_json (SuccessBody shortUrl code) 200%N headers) →
  ∃ s target,
    body request = BodyValue (JString s)
    ∧ normalizedUrl (validateUrl s) = Some target
    ∧ (isValidCodeFormat code = true →
       target ≠ [] →
       fst (RedirectPage code (snd (POST request w)))
       = Throw (NextRedirect target))
    ∧ (isValidCodeFormat code = false →
       fst (RedirectPage code (snd (POST request w))) = Throw NextNotFound).
Proof.
  intros Hr.
  destruct (POST_success_local _ _ _ _ _ Hr)
    as (s & target & Hbody & Hv & _ & Hstore & _ & _).
  exists s, target. split; [done|]. split; [by rewrite Hv|]. split.
  - intros Hgood Hne. rewrite (RedirectPage_well_formed _ _ Hgood).
    cbn [fst]. rewrite local_get_spec, Hstore, contents_on_disk. cbn [fst].
    rewrite (read_property_own _ _ (new_record w target))
      by apply lookup_insert_eq.
    cbn [url new_record].
    by rewrite (bool_decide_eq_false_2 _ Hne).
  - intros Hbad. by rewrite (RedirectPage_malformed _ _ Hbad).
Qed.

Lemma created_link_resolves_iff_code_valid_witness :
  let request := shorten_request (js "https://example.com/a") in
  let lucky := Reference.fresh_world None [] (λ _, 0%N) in
  let unlucky := Reference.fresh_world None [] (λ _, 8%N) in
  fst (RedirectPage (js "uuuuuu")
         (snd (@POST _ _ _ Reference.platform request lucky)))
  = Throw (NextRedirect (js "https://example.com/a"))
  ∧ fst (RedirectPage (js "------")
           (snd (@POST _ _ _ Reference.platform request unlucky)))
    = Throw NextNotFound.
Proof.
  intros request lucky unlucky. split.
  - destruct (@created_link_resolves_iff_code_valid
                _ Reference.platform request lucky
                (js "https://sho.rt/uuuuuu") (js "uuuuuu")
                [("Cache-Control",
                  HText "no-cache, no-store, must-revalidate")]%string
                ltac:(by vm_compute))
      as (s & target & Hbody & Hv & Hgood & _).
    injection Hbody as <-.
    assert (target = js "https://example.com/a") as ->
      by (vm_compute in Hv; injection Hv as <-; by vm_compute).
    apply Hgood; by vm_compute.
  - destruct (@created_link_resolves_iff_code_valid
                _ Reference.platform request unlucky
                (js "https://sho.rt/------") (js "------")
                [("Cache-Control",
                  HText "no-cache, no-store, must-revalidate")]%string
                ltac:(by vm_compute))
      as (s & target & _ & _ & _ & Hbad).
    apply Hbad. by vm_compute.
Defined.

(** ** Rate limiting, continued *)

(** X15: a request for the redirect page of a well-formed code is never
    rate limited: the middleware passes it on without calling the limiter,
    adding a header or writing to the console. *)
Theorem redirect_requests_not_rate_limited
        {S L : Type} {ratelimit : Ratelimit L}
        (request : NextRequest) (code : jsstring) (w : World S L) :
  pathname request = js "/" ++ code →
  isValidCodeFormat code = true →
  middleware request w = (Ok (NextResponse_next []), w).
Proof.
  intros Hpath [_ Halnum]%isValidCodeFormat_spec.
  apply middleware_other_path. apply not_true_is_false.
  rewrite Hpath. intros [r Hr]%startsWith_spec.
  change (js "/" ++ code) with (47%N :: code) in Hr.
  change (js "/api/" ++ r) with (47%N :: (js "api/" ++ r)) in Hr.
  injection Hr as ->.
  rewrite List.Forall_forall in Halnum.
  assert (Hslash : alphanumeric 47%N).
  { apply in_ALPHABET, Halnum. simpl. tauto. }
  unfold alphanumeric in Hslash. lia.
Qed.

Lemma redirect_requests_not_rate_limited_witness :
  let request := {| pathname := js "/abc123"; nextUrl_protocol := js "https:";
                    nextUrl_host := js "sho.rt"; x_forwarded_for := None;
                    x_real_ip := None; body := BodyInvalid |} in
  let w := Reference.fresh_world None [Ok over_cap] (λ _, 0%N) in
  middleware request w = (Ok (NextResponse_next []), w).
Proof.
  intros request w.
  apply (redirect_requests_not_rate_limited request (js "abc123"));
    by vm_compute.
Defined.

(** X16: the middleware answers 429 exactly when the path begins with
    [/api/], the limiter call returns, reports [success = false], and its
    [reset] time is a valid date; a limiter answer over the cap whose
    [reset] cannot be formatted lets the request through. *)
Theorem middleware_rejects_iff
        {S L : Type} {ratelimit : Ratelimit L}
        (request : NextRequest) (w : World S L) :
  (∃ answer headers,
     fst (middleware request w) = Ok (NextResponse_json answer 429%N headers))
  ↔ startsWith (pathname request) (js "/api/") = true
    ∧ ∃ r l',
        ratelimit_limit (client_ip request) (w_limiter w) = (Ok r, l')
        ∧ success r = false
        ∧ (Z.abs (reset r) ≤ 8640000000000000)%Z.
Proof.
  destruct (startsWith (pathname request) (js "/api/")) eqn:Hapi.
  - rewrite (middleware_api _ _ Hapi).
    destruct (ratelimit_limit (client_ip request) (w_limiter w))
      as [[r|e] l'].
    + destruct (Z.abs (reset r) <=? 8640000000000000)%Z eqn:Hdate;
        [apply Z.leb_le in Hdate | apply Z.leb_gt in Hdate];
        destruct (success r) eqn:Hs; cbn [fst]; split;
        try (intros (? & ? & [=]); fail);
        try (intros (_ & r' & l'' & [= <- <-] & Hs' & Hd'); congruence || lia).
      intros _. split; [done|]. by exists r, l'.
      intros _. by eexists _, _.
    + cbn [fst]. split; [intros (? & ? & [=])|].
      intros (_ & r' & l'' & [=] & _).
  - rewrite (middleware_other_path _ _ Hapi). cbn [fst].
    split; [intros (? & ? & [=]) | intros [[=] _]].
Qed.

(** ** The two storage adapters *)

Lemma getKey_injective (a b : jsstring) :
  VercelKVAdapter.getKey a = VercelKVAdapter.getKey b → a = b.
Proof. unfold VercelKVAdapter.getKey. apply app_inv_head. Qed.

(** X17: over a key-value service that behaves as a mapping, the KV
    adapter and the local adapter agree on every code that is not the
    name of a member of [Object.prototype] (every six-character code is
    such a code): started with the same records, [get] and [exists] give
    the same answers on both, and a [save] whose write the file system
    takes succeeds on both and leaves them with the same records again.
    Each code lives under its own key [shorturl:<code>].  On the name of
    an inherited member that has no record the two differ: [exists] is
    true on the local adapter and false on the KV adapter. *)
Theorem adapters_agree_outside_prototype
        {K : Type} (kv : KvClient K) (view : K → gmap jsstring UrlData)
        (set_law : ∀ k v s, ∃ s', kv_set kv k v s = (Ok tt, s')
                                  ∧ view s' = <[k := v]> (view s))
        (get_law : ∀ k s, kv_get kv k s = (Ok (view s !! k), s))
        (exists_law : ∀ k s,
            kv_exists kv k s
            = (Ok (if bool_decide (is_Some (view s !! k)) then 1%N else 0%N), s))
        (file : DataFile) (s : K) (code : jsstring) (record : UrlData) :
  same_records view file s →
  (code ∉ Object_prototype_names →
   fst (@get _ (VercelKV kv) code s) = fst (@get _ LocalJSON code file)
   ∧ fst (@exists_ _ (VercelKV kv) code s)
     = fst (@exists_ _ LocalJSON code file)
   ∧ (fault file = None →
      ∃ s' file',
        @save _ (VercelKV kv) code record s = (Ok tt, s')
        ∧ @save _ LocalJSON code record file = (Ok tt, file')
        ∧ same_records view file' s'))
  ∧ (code ∈ Object_prototype_names →
     contents file !! code = None →
     fst (@exists_ _ LocalJSON code file) = Ok true
     ∧ fst (@exists_ _ (VercelKV kv) code s) = Ok false).
Proof.
  intros Hsame. split.
  - intros Hown. split; [|split].
    + rewrite local_get_spec. cbn [get VercelKV].
      unfold VercelKVAdapter.get, bind. rewrite get_law, <- Hsame. cbn.
      unfold LocalJSONAdapter.read_property, inherited.
      destruct (contents file !! code); [done|].
      by rewrite bool_decide_eq_false_2.
    + rewrite local_exists_spec. cbn [exists_ VercelKV].
      unfold VercelKVAdapter.exists_, bind. rewrite exists_law, <- Hsame. cbn.
      unfold present_in_file, inherited.
      rewrite (bool_decide_eq_false_2 (code ∈ _)) by done.
      rewrite orb_false_r. by destruct (bool_decide _).
    + intros Hfault.
      destruct (set_law (VercelKVAdapter.getKey code) record s)
        as (s' & Hset & Hview).
      eexists s', _.
      split; [exact Hset|]. split; [by apply local_save_ok|].
      intros c. rewrite Hview, contents_on_disk.
      rewrite assign_own.
      2: { left. intros ->. apply Hown.
           apply (bool_decide_unpack _). by vm_compute. }
      destruct (decide (c = code)) as [->|Hne].
      * by rewrite !lookup_insert_eq.
      * rewrite !lookup_insert_ne; [apply Hsame | | done].
        intros Heq%getKey_injective. congruence.
  - intros Hin Hnone. split.
    + rewrite local_exists_spec. cbn [fst]. f_equal.
      unfold present_in_file, inherited.
      rewrite (bool_decide_eq_true_2 (code ∈ _)) by done. apply orb_true_r.
    + cbn [exists_ VercelKV]. unfold VercelKVAdapter.exists_, bind.
      by rewrite exists_law, <- Hsame, Hnone.
Qed.

Lemma adapters_agree_outside_prototype_witness :
  fst (@get _ (VercelKV map_kv) (js "abc123")
            {[ js "shorturl:abc123" := example_record ]})
  = fst (@get _ LocalJSON (js "abc123")
              (on_disk (Some {[ js "abc123" := example_record ]}))).
Proof.
  apply (adapters_agree_outside_prototype map_kv id).
  - intros k v s. by eexists.
  - done.
  - done.
  - exact other_record.
  - intros c. rewrite contents_on_disk. cbn [id].
    destruct (decide (c = js "abc123")) as [->|Hne].
    + by vm_compute.
    + rewrite !lookup_singleton_ne; [done| |done].
      intros Heq. apply Hne. symmetry.
      by apply (getKey_injective (js "abc123") c).
  - apply (bool_decide_unpack _). by vm_compute.
Defined.

(** X18: on the local adapter, when the file system takes the write and
    the code is not [__proto__], after [saveUrl(code, url)] the code
    exists, and [getUrl(code)] returns the URL, or null when the URL is
    the empty string (so [urlExists] and [getUrl] then disagree); the
    record carries the current time; lookups of every other code are as
    before.  When the file system rejects the write, [saveUrl] rejects
    with the same error. *)
Theorem saveUrl_then_lookup
        {L : Type} (w : World DataFile L) (code target : jsstring) :
  let w' := snd (saveUrl code target w) in
  (fault (w_store w) = None →
   code ≠ js "__proto__" →
   fst (saveUrl code target w) = Ok tt
   ∧ contents (w_store w') !! code = Some (new_record w target)
   ∧ fst (urlExists code w') = Ok true
   ∧ fst (getUrl code w')
     = Ok (if bool_decide (target = []) then None else Some target)
   ∧ ∀ other, other ≠ code →
       fst (getUrl other w') = fst (getUrl other w)
       ∧ fst (urlExists other w') = fst (urlExists other w))
  ∧ (∀ e damage, fault (w_store w) = Some (e, damage) →
                 fst (saveUrl code target w) = Throw e).
Proof.
  intros w'. unfold w'. rewrite saveUrl_spec. cbv zeta. cbn [fst snd]. split.
  - intros Hfault Hcode.
    rewrite local_save_ok by done. cbn [fst snd].
    rewrite assign_own by by left.
    split; [done|].
    split; [cbn [after_call w_store]; rewrite contents_on_disk;
            apply lookup_insert_eq|].
    rewrite !storage_exists_spec, !getUrl_spec.
    cbn [fst snd after_call w_store].
    rewrite local_exists_spec, local_get_spec. cbn [fst].
    rewrite contents_on_disk.
    rewrite (read_property_own _ _ {| url := target; createdAt := w_now w;
                                      expiresAt := None |})
      by apply lookup_insert_eq.
    unfold present_in_file. rewrite contents_on_disk, lookup_insert_eq.
    cbn [url]. split.
    { rewrite bool_decide_eq_true_2; [done | by eexists]. }
    split; [done|].
    intros other Hne.
    rewrite !storage_exists_spec, !getUrl_spec.
    cbn [fst snd after_call w_store].
    rewrite !local_exists_spec, !local_get_spec. cbn [fst].
    unfold present_in_file, LocalJSONAdapter.read_property.
    rewrite contents_on_disk. by rewrite lookup_insert_ne.
  - intros e damage Hfault. by apply local_save_throws with damage.
Qed.

Lemma saveUrl_then_lookup_witness :
  let w := Reference.fresh_world (Some {[ js "zzz999" := example_record ]})
                                 [] (λ _, 0%N) in
  let w' := snd (saveUrl (js "abc123") [] w) in
  fst (urlExists (js "abc123") w') = Ok true
  ∧ fst (getUrl (js "abc123") w') = Ok None
  ∧ fst (getUrl (js "zzz999") w') = fst (getUrl (js "zzz999") w).
Proof.
  intros w w'.
  destruct (proj1 (saveUrl_then_lookup w (js "abc123") []))
    as (_ & _ & Hexists & Hget & Hframe); [by vm_compute..|].
  split; [exact Hexists|]. split; [exact Hget|].
  apply (Hframe (js "zzz999")). by vm_compute.
Defined.

(** ** What the handlers write to the console and to storage *)

(** X19: for a well-formed code the redirect page writes one error line
    to the console on every outcome but a redirect: when the lookup
    raises, with the error raised, and also when the code simply has no
    record or its record has an empty URL, with the framework's not-found
    signal; a redirect writes nothing.  (A [get] that returns an
    inherited member counts as no record.) *)
Theorem RedirectPage_console
        {S L : Type} {storage : StorageAdapter S}
        (code : jsstring) (w : World S L) :
  isValidCodeFormat code = true →
  let outcome := fst (get code (w_store w)) in
  let console := w_console (snd (RedirectPage code w)) in
  (∀ r, outcome = Ok (Some (Stored r)) → url r ≠ [] →
        console = w_console w)
  ∧ (∀ r, outcome = Ok (Some (Stored r)) → url r = [] →
          console = w_console w
                    ++ [LogError "Error redirecting code" code NextNotFound])
  ∧ (outcome = Ok None →
     console = w_console w
               ++ [LogError "Error redirecting code" code NextNotFound])
  ∧ (∀ e, outcome = Throw e → is_redirect_error e = false →
          console = w_console w ++ [LogError "Error redirecting code" code e])
  ∧ (∀ name, outcome = Ok (Some (Inherited name)) →
             console = w_console w
                       ++ [LogError "Error redirecting code" code NextNotFound]).
Proof.
  intros Hgood outcome console. unfold outcome, console.
  rewrite (RedirectPage_well_formed _ _ Hgood). cbn [snd].
  destruct (fst (get code (w_store w))) as [[[d|name]|]|e];
    [ destruct (bool_decide (url d = [])) eqn:Hd;
      [ apply bool_decide_eq_true in Hd | apply bool_decide_eq_false in Hd ]
    | | | destruct (is_redirect_error e) eqn:He ];
    split_and!; try done; intros; simplify_eq; try done; congruence.
Qed.

Lemma RedirectPage_console_witness :
  let w := Reference.fresh_world (Some {[ js "abc123" := example_record ]})
                                 [] (λ _, 0%N) in
  w_console (snd (RedirectPage (js "abc123") w)) = []
  ∧ w_console (snd (RedirectPage (js "zzz999") w))
    = [LogError "Error redirecting code" (js "zzz999") NextNotFound].
Proof.
  intros w. split.
  - destruct (RedirectPage_console (js "abc123") w ltac:(by vm_compute))
      as (Hquiet & _).
    apply (Hquiet example_record); by vm_compute.
  - destruct (RedirectPage_console (js "zzz999") w ltac:(by vm_compute))
      as (_ & _ & Hmiss & _).
    apply Hmiss. by vm_compute.
Defined.

(** X20: when [save] raises after a code was generated, [POST] answers
    with status 500 and the code STORAGE_ERROR; it has called [save] once
    and does not call it again, and it writes the error to the console. *)
Theorem save_failure_reported_without_retry
        {S L : Type} {storage : StorageAdapter S} {platform : Platform}
        (request : NextRequest) (s : jsstring) (w w1 : World S L)
        (code target : jsstring) (e : Exn) (s' : S) :
  body request = BodyValue (JString s) →
  s ≠ [] →
  validateUrl s = valid target →
  generateUniqueCode w = (Ok code, w1) →
  save code (new_record w1 target) (w_store w1) = (Throw e, s') →
  fst (POST request w)
  = Ok (error_response "STORAGE_ERROR"
          "Failed to save URL. Please try again." 500%N)
  ∧ w_calls (snd (POST request w))
    = w_calls w1 ++ [CallSave code (new_record w1 target)]
  ∧ w_console (snd (POST request w))
    = w_console w1 ++ [LogError "Failed to save URL:" [] e].
Proof.
  intros Hbody Hs Hv Hgen Hsave.
  rewrite (POST_with_url _ _ _ Hbody Hs), Hv. cbn [isValid valid].
  assert (Hsv : shorten_valid request (valid target) w
                = (Ok (error_response "STORAGE_ERROR"
                         "Failed to save URL. Please try again." 500%N),
                   snd (log (LogError "Failed to save URL:" [] e)
                            (after_call (CallSave code (new_record w1 target))
                                        s' w1)))).
  { unfold shorten_valid. unfold bind at 1. unfold try_catch at 1.
    unfold bind at 1. rewrite Hgen. cbn [ret]. cbv beta iota.
    unfold bind at 1. unfold try_catch at 1. unfold bind at 1.
    rewrite saveUrl_spec. cbv zeta. cbn [normalizedUrl valid default].
    unfold new_record in Hsave. unfold id. rewrite Hsave. reflexivity. }
  rewrite Hsv. split; [done|]. split; done.
Qed.

Lemma save_failure_reported_without_retry_witness :
  let request := shorten_request (js "https://example.com/a") in
  fst (@POST _ _ (VercelKV readonly_kv) Reference.platform request kv_world)
  = Ok (error_response "STORAGE_ERROR"
          "Failed to save URL. Please try again." 500%N)
  ∧ w_calls (snd (@POST _ _ (VercelKV readonly_kv) Reference.platform
                        request kv_world))
    = [CallExists (js "uuuuuu");
       CallSave (js "uuuuuu") (new_record kv_world (js "https://example.com/a"))].
Proof.
  intros request.
  destruct (@save_failure_reported_without_retry
              _ _ (VercelKV readonly_kv) Reference.platform
              request (js "https://example.com/a") kv_world
              (snd (@generateUniqueCode _ _ (VercelKV readonly_kv) kv_world))
              (js "uuuuuu") (js "https://example.com/a")
              (BackendError "read-only replica") ∅)
    as (Hresp & Hcalls & _); [by vm_compute..|].
  split; [exact Hresp|]. rewrite Hcalls. by vm_compute.
Defined.
